(** * Batch analytics: indicators, correlations and trend forecast

    A shallow embedding of [WEBSITE/analytics/batch_analytics.py].

    Conventions of the embedding:
    - a Python [int] is a [Z]; a Python [float] is a real number ([R]),
      so arithmetic is exact and [np.sqrt] is the real square root;
    - the float [NaN] (an undefined statistic, a missing cell) is [None];
    - a result dictionary with fixed keys is a record; the dictionary
      [{'error': msg}] is the constructor [Error msg];
    - status, trend and interpretation labels stay the strings the code
      returns;
    - the estimators of numpy and pandas the code calls ([np.mean],
      [np.std], [Series.std], [Series.corr], ...) follow those libraries'
      documented definitions; the order statistics and shape estimators
      of [univariate_analysis] and the parsing of text cells are
      parameters;
    - [round(x, 1)] rounds the exact value to the nearest tenth, ties to
      the even neighbour. *)

From Stdlib Require Import Reals Lra Lia ZArith List String Ascii Bool.
From Stdlib Require Import Permutation Sorted.
Import ListNotations.

Open Scope string_scope.
Open Scope R_scope.

(** ** Results *)

Inductive result (A : Type) : Type :=
| Error (msg : string)
| Ok (a : A).

Arguments Error {A} msg.
Arguments Ok {A} a.

(** ** Numeric helpers *)

Module Num.

(** Python's [round(x)] on an exact value: nearest integer, ties to the
    even neighbour. *)
Definition round_half_even (x : R) : Z :=
  let f := Zfloor x in
  let d := x - IZR f in
  if Rlt_dec d (1 / 2) then f
  else if Rlt_dec (1 / 2) d then (f + 1)%Z
  else if Z.even f then f else (f + 1)%Z.

(** [round(x, 1)]. *)
Definition round1 (x : R) : R := IZR (round_half_even (x * 10)) / 10.

Definition sum (l : list R) : R := fold_right Rplus 0 l.

Definition len (l : list R) : R := INR (List.length l).

(** Elementwise combination of two arrays of one length. *)
Definition map2 {A B C : Type} (f : A -> B -> C) (a : list A) (b : list B)
  : list C :=
  map (fun p => f (fst p) (snd p)) (combine a b).

(** [np.arange(start, start + count)], as floats. *)
Definition arange (start count : nat) : list R := map INR (seq start count).

(** [np.mean], [Series.mean]; only ever called on non-empty data. *)
Definition mean (l : list R) : R := sum l / len l.

(** Sum of the squared deviations from the mean. *)
Definition ssd (l : list R) : R :=
  let m := mean l in sum (map (fun x => (x - m) * (x - m)) l).

(** [np.std]: the population standard deviation (ddof = 0). *)
Definition pstd (l : list R) : R := sqrt (ssd l / len l).

(** [Series.std]: pandas divides by [n - 1] (ddof = 1), and the result is
    NaN on fewer than two values. *)
Definition sample_std (l : list R) : option R :=
  if (List.length l <=? 1)%nat then None
  else Some (sqrt (ssd l / (len l - 1))).

(** [Series.min] and [Series.max]; NaN on an empty series. *)
Definition minimum (l : list R) : option R :=
  match l with
  | [] => None
  | x :: l' => Some (fold_left Rmin l' x)
  end.

Definition maximum (l : list R) : option R :=
  match l with
  | [] => None
  | x :: l' => Some (fold_left Rmax l' x)
  end.

(** Sample covariance (ddof = 1), as [np.cov] computes it. *)
Definition cov (a b : list R) : R :=
  let ma := mean a in
  let mb := mean b in
  sum (map2 (fun x y => (x - ma) * (y - mb)) a b) / (len a - 1).

(** [Series.corr] (Pearson, through [np.corrcoef]): the covariance divided
    by both standard deviations; NaN when one of them is zero or fewer than
    two observations are given. *)
Definition corr (a b : list R) : option R :=
  if (List.length a <=? 1)%nat then None
  else
    let va := cov a a in
    let vb := cov b b in
    if Req_dec_T va 0 then None
    else if Req_dec_T vb 0 then None
    else Some (cov a b / sqrt va / sqrt vb).

End Num.

(** ** Strings *)

Module Str.

Definition is_lower (c : ascii) : bool :=
  ((97 <=? nat_of_ascii c) && (nat_of_ascii c <=? 122))%nat.

Definition is_upper (c : ascii) : bool :=
  ((65 <=? nat_of_ascii c) && (nat_of_ascii c <=? 90))%nat.

Definition upper (c : ascii) : ascii :=
  if is_lower c then ascii_of_nat (nat_of_ascii c - 32) else c.

Definition lower (c : ascii) : ascii :=
  if is_upper c then ascii_of_nat (nat_of_ascii c + 32) else c.

(** [str.title()]: a letter that follows a letter is lowered, any other
    letter is raised. *)
Fixpoint title_from (prev_cased : bool) (s : string) : string :=
  match s with
  | EmptyString => EmptyString
  | String c s' =>
      String (if prev_cased then lower c else upper c)
             (title_from (is_lower c || is_upper c) s')
  end.

Definition title (s : string) : string := title_from false s.

End Str.

(** ** Configuration *)

Module CONFIG.

Definition saturation_critical : R := 40.
Definition saturation_warning : R := 60.
Definition volatility_high : R := 150.
Definition velocity_drop_warning : R := 30.

(** State populations, in millions. *)
Definition population : list (string * R) :=
  [ ("Uttar Pradesh", 240); ("Maharashtra", 130); ("Bihar", 128);
    ("West Bengal", 100); ("Madhya Pradesh", 87); ("Tamil Nadu", 80);
    ("Rajasthan", 82); ("Karnataka", 70); ("Gujarat", 72);
    ("Andhra Pradesh", 53); ("Telangana", 40); ("Kerala", 36);
    ("Jharkhand", 40); ("Odisha", 47); ("Punjab", 31) ]%string.

End CONFIG.

(** [d.get(key, default)] on a dictionary kept as an association list. *)
Fixpoint dict_get {A : Type} (d : list (string * A)) (key : string)
  (default : A) : A :=
  match d with
  | [] => default
  | (k, v) :: d' => if String.eqb k key then v else dict_get d' key default
  end.

(** ** Tables *)

Inductive cell : Type :=
| Number (x : R)
| Text (s : string)
| Missing.

Definition row : Type := list (string * cell).

Record DataFrame : Type := {
  columns : list string;
  rows : list row
}.

(** [column in df.columns]. *)
Definition has_column (df : DataFrame) (column : string) : bool :=
  existsb (String.eqb column) (columns df).

(** [df[column]]. *)
Definition get_column (df : DataFrame) (column : string) : list cell :=
  map (fun r => dict_get r column Missing) (rows df).

(** [Series.dropna()]. *)
Fixpoint dropna (s : list (option R)) : list R :=
  match s with
  | [] => []
  | Some x :: s' => x :: dropna s'
  | None :: s' => dropna s'
  end.

(** [Series.notna()]. *)
Definition notna (s : list (option R)) : list bool :=
  map (fun v => match v with Some _ => true | None => false end) s.

(** [s[mask]] for a boolean mask on the index of [s]. *)
Definition select {A : Type} (s : list A) (mask : list bool) : list A :=
  map fst (filter snd (combine s mask)).

(** ** Result records *)

Module Univariate.
Record t : Type := {
  column : string;
  count : Z;
  mean : R;
  std : option R;
  min : option R;
  max : option R;
  median : option R;
  q25 : option R;
  q75 : option R;
  skewness : option R;
  kurtosis : option R
}.
End Univariate.

Module Bivariate.
Record t : Type := {
  column1 : string;
  column2 : string;
  correlation : R;
  sample_size : Z;
  interpretation : string
}.
End Bivariate.

Module Pair.
Record t : Type := {
  pair : string;
  correlation : R
}.
End Pair.

Module Saturation.
Record t : Type := {
  value : R;
  status : string;
  population_millions : R
}.
End Saturation.

Module Volatility.
Record t : Type := {
  value : R;
  status : string
}.
End Volatility.

Module Forecast.
Record t : Type := {
  slope : R;
  intercept : R;
  r_squared : R;
  forecast : list R;
  trend : string
}.
End Forecast.

(** ** Univariate and bivariate analysis *)

Section Pandas.

(** What [pd.to_numeric] makes of a text cell: its number, or NaN. *)
Variable parse_number : string -> option R.

(** Order statistics and shape estimators of a numeric series, as pandas
    computes them. *)
Variable median : list R -> option R.
Variable quantile : list R -> R -> option R.
Variable skew : list R -> option R.
Variable kurtosis : list R -> option R.

(** [pd.to_numeric(s, errors='coerce')]. *)
Definition to_numeric (s : list cell) : list (option R) :=
  map (fun c => match c with
                | Number x => Some x
                | Text t => parse_number t
                | Missing => None
                end) s.

Definition univariate_analysis (df : DataFrame) (column : string)
  : result Univariate.t :=
  if negb (has_column df column)
  then Error ("Column " ++ column ++ " not found")
  else
    let series := dropna (to_numeric (get_column df column)) in
    if (List.length series =? 0)%nat
    then Error ("No valid numeric data in " ++ column)
    else Ok {| Univariate.column := column;
               Univariate.count := Z.of_nat (List.length series);
               Univariate.mean := Num.mean series;
               Univariate.std := Num.sample_std series;
               Univariate.min := Num.minimum series;
               Univariate.max := Num.maximum series;
               Univariate.median := median series;
               Univariate.q25 := quantile series 0.25;
               Univariate.q75 := quantile series 0.75;
               Univariate.skewness := skew series;
               Univariate.kurtosis := kurtosis series |}.

Definition interpret_correlation (r : option R) : string :=
  match r with
  | None => "No correlation calculated"
  | Some r =>
      let abs_r := Rabs r in
      let direction := if Rlt_dec 0 r then "positive" else "negative" in
      let strength :=
        if Rlt_dec abs_r 0.1 then "negligible"
        else if Rlt_dec abs_r 0.3 then "weak"
        else if Rlt_dec abs_r 0.5 then "moderate"
        else if Rlt_dec abs_r 0.7 then "strong"
        else "very strong" in
      Str.title strength ++ " " ++ direction ++ " correlation"
  end%string.

Definition bivariate_correlation (df : DataFrame) (col1 col2 : string)
  : result Bivariate.t :=
  if negb (has_column df col1) || negb (has_column df col2)
  then Error "Columns not found"
  else
    let s1 := to_numeric (get_column df col1) in
    let s2 := to_numeric (get_column df col2) in
    let valid_mask := Num.map2 andb (notna s1) (notna s2) in
    let s1 := dropna (select s1 valid_mask) in
    let s2 := dropna (select s2 valid_mask) in
    if (List.length s1 <? 2)%nat then Error "Insufficient data"
    else
      let correlation := Num.corr s1 s2 in
      Ok {| Bivariate.column1 := col1;
            Bivariate.column2 := col2;
            Bivariate.correlation :=
              match correlation with Some r => r | None => 0 end;
            Bivariate.sample_size := Z.of_nat (List.length s1);
            Bivariate.interpretation := interpret_correlation correlation |}.

End Pandas.

(** ** Top correlations of a matrix *)

Record CorrMatrix : Type := {
  cm_columns : list string;
  loc : string -> string -> option R
}.

(** [enumerate(l)]. *)
Definition enumerate {A : Type} (l : list A) : list (nat * A) :=
  combine (seq 0 (List.length l)) l.

(** The pairs the double loop appends, in the order it appends them. *)
Definition upper_pairs (corr_matrix : CorrMatrix) : list Pair.t :=
  let cols := cm_columns corr_matrix in
  flat_map (fun ic1 =>
    flat_map (fun jc2 =>
      if (fst ic1 <? fst jc2)%nat then
        match loc corr_matrix (snd ic1) (snd jc2) with
        | Some r => [ {| Pair.pair := (snd ic1 ++ " vs " ++ snd jc2)%string;
                         Pair.correlation := r |} ]
        | None => []
        end
      else [])
      (enumerate cols))
    (enumerate cols).

(** [list.sort(key=..., reverse=True)]: stable, largest key first. *)
Fixpoint insert_desc {A : Type} (key : A -> R) (x : A) (l : list A) : list A :=
  match l with
  | [] => [x]
  | y :: l' =>
      if Rlt_dec (key x) (key y) then y :: insert_desc key x l'
      else x :: l
  end.

Definition sort_desc {A : Type} (key : A -> R) (l : list A) : list A :=
  fold_right (insert_desc key) [] l.

(** [l[:n]]; a negative [n] counts from the end. *)
Definition slice_to {A : Type} (l : list A) (n : Z) : list A :=
  if (n <? 0)%Z then firstn (List.length l - Z.to_nat (- n)) l
  else firstn (Z.to_nat n) l.

Definition extract_top_correlations (corr_matrix : CorrMatrix) (n : Z)
  : list Pair.t :=
  let pairs := upper_pairs corr_matrix in
  let pairs := sort_desc (fun x => Rabs (Pair.correlation x)) pairs in
  slice_to pairs n.

(** The default of the parameter [n]. *)
Definition default_n : Z := 5.

(** ** Indicators *)

(** The index of [calculate_saturation_index] before it is rounded. *)
Definition saturation_raw (total_enrollments : Z) (state : string) : R :=
  let population := dict_get CONFIG.population state 50 * 1000000 in
  Rmin ((IZR total_enrollments / population) * 100) 120.

Definition calculate_saturation_index (total_enrollments : Z) (state : string)
  : Saturation.t :=
  let index := saturation_raw total_enrollments state in
  let status :=
    if Rlt_dec index CONFIG.saturation_critical then "critical"
    else if Rlt_dec index CONFIG.saturation_warning then "warning"
    else "healthy" in
  {| Saturation.value := Num.round1 index;
     Saturation.status := status;
     Saturation.population_millions := dict_get CONFIG.population state 50 |}.

(** The coefficient of variation of [calculate_volatility_index] before it
    is rounded. *)
Definition volatility_raw (daily_values : list R) : R :=
  let mean := Num.mean daily_values in
  let std := Num.pstd daily_values in
  (std / mean) * 100.

Definition calculate_volatility_index (daily_values : list R) : Volatility.t :=
  if (List.length daily_values <? 2)%nat
  then {| Volatility.value := 0; Volatility.status := "insufficient_data" |}
  else if Req_dec_T (Num.mean daily_values) 0
  then {| Volatility.value := 0; Volatility.status := "no_activity" |}
  else
    let cv := volatility_raw daily_values in
    let status :=
      if Rlt_dec cv 50 then "stable"
      else if Rlt_dec cv 100 then "moderate"
      else if Rlt_dec cv CONFIG.volatility_high then "high"
      else "critical" in
    {| Volatility.value := Num.round1 cv; Volatility.status := status |}.

(** ** Forecasting *)

(** The regression sums of [simple_linear_forecast]. *)
Definition fit_X (time_series : list R) : list R :=
  Num.arange 0 (List.length time_series).

Definition fit_numerator (time_series : list R) : R :=
  let X := fit_X time_series in
  let X_mean := Num.mean X in
  let y_mean := Num.mean time_series in
  Num.sum (Num.map2 (fun x y => (x - X_mean) * (y - y_mean)) X time_series).

Definition fit_denominator (time_series : list R) : R :=
  let X := fit_X time_series in
  let X_mean := Num.mean X in
  Num.sum (map (fun x => (x - X_mean) ^ 2) X).

Definition fit_ss_tot (time_series : list R) : R :=
  let y_mean := Num.mean time_series in
  Num.sum (map (fun y => (y - y_mean) ^ 2) time_series).

Definition simple_linear_forecast (time_series : list R) (periods : Z)
  : result Forecast.t :=
  if (List.length time_series <? 10)%nat
  then Error "Insufficient data for forecasting"
  else
    let X := fit_X time_series in
    let y := time_series in
    let X_mean := Num.mean X in
    let y_mean := Num.mean y in
    let numerator := fit_numerator time_series in
    let denominator := fit_denominator time_series in
    if Req_dec_T denominator 0 then Error "Cannot calculate slope"
    else
      let slope := numerator / denominator in
      let intercept := y_mean - slope * X_mean in
      let future_X :=
        Num.arange (List.length time_series) (Z.to_nat periods) in
      let forecast := map (fun x => slope * x + intercept) future_X in
      let y_pred := map (fun x => slope * x + intercept) X in
      let ss_res := Num.sum (Num.map2 (fun a b => (a - b) ^ 2) y y_pred) in
      let ss_tot := fit_ss_tot time_series in
      let r_squared :=
        if Rlt_dec 0 ss_tot then 1 - ss_res / ss_tot else 0 in
      Ok {| Forecast.slope := slope;
            Forecast.intercept := intercept;
            Forecast.r_squared := r_squared;
            Forecast.forecast := forecast;
            Forecast.trend :=
              if Rlt_dec 0 slope then "increasing"
              else if Rlt_dec slope 0 then "decreasing"
              else "flat" |}.

(** The default of the parameter [periods], which is also what
    [forecast_enrollment_trend] passes. *)
Definition default_periods : Z := 30.

(** ** Age-group distribution *)

(** [d[key] = v] on a dictionary kept as an association list: an existing
    key keeps its place, a new key goes to the end. *)
Fixpoint dict_set {A : Type} (d : list (string * A)) (key : string) (v : A)
  : list (string * A) :=
  match d with
  | [] => [(key, v)]
  | (k, x) :: d' =>
      if String.eqb k key then (k, v) :: d' else (k, x) :: dict_set d' key v
  end.

Definition age_cols : list string :=
  ["age_0_5"; "age_5_17"; "age_18_greater";
   "0-5 Years"; "5-17 Years"; "18+ Years"].

Module Distribution.
Record t : Type := {
  total_records : Z;
  age_groups : list (string * Univariate.t)
}.
End Distribution.

Section Distribution.

Variable parse_number : string -> option R.
Variable median : list R -> option R.
Variable quantile : list R -> R -> option R.
Variable skew : list R -> option R.
Variable kurtosis : list R -> option R.

Definition analyze_enrollment_distribution (df : DataFrame) : Distribution.t :=
  {| Distribution.total_records := Z.of_nat (List.length (rows df));
     Distribution.age_groups :=
       fold_left (fun groups col =>
         if has_column df col then
           match univariate_analysis parse_number median quantile skew
                                     kurtosis df col with
           | Ok stats => dict_set groups col stats
           | Error _ => groups
           end
         else groups) age_cols [] |}.

End Distribution.

(** ** State indicators and the enrollment trend *)

(** [df.empty]: no rows, or no columns. *)
Definition df_empty (df : DataFrame) : bool :=
  (List.length (rows df) =? 0)%nat || (List.length (columns df) =? 0)%nat.

(** [cell == s] for a string [s]. *)
Definition cell_is (s : string) (c : cell) : bool :=
  match c with
  | Text t => String.eqb t s
  | _ => false
  end.

(** [df[mask]] for a row mask: the columns stay, the rows are filtered. *)
Definition filter_rows (df : DataFrame) (keep : row -> bool) : DataFrame :=
  {| columns := columns df; rows := filter keep (rows df) |}.

(** What a cell adds to a sum: pandas sums skip NaN. *)
Definition cell_value (c : cell) : R :=
  match c with
  | Number x => x
  | _ => 0
  end.

(** [df[column].sum()]. *)
Definition column_sum (df : DataFrame) (column : string) : R :=
  Num.sum (map cell_value (get_column df column)).

(** [int(x)]: truncation towards zero. *)
Definition python_int (x : R) : Z :=
  if Rle_dec 0 x then Zfloor x else Zceil x.

(** One more value for the group of key [k], the groups being kept in
    ascending order of their keys. *)
Fixpoint group_add (k : Z) (v : R) (groups : list (Z * R)) : list (Z * R) :=
  match groups with
  | [] => [(k, v)]
  | (k', v') :: groups' =>
      if (k <? k')%Z then (k, v) :: groups
      else if (k =? k')%Z then (k', v' + v) :: groups'
      else (k', v') :: group_add k v groups'
  end.

(** [groupby(keys)[values].sum()]: one sum per key, keys ascending; a row
    whose key is missing (NaT) belongs to no group, and a group of missing
    values sums to 0. *)
Definition groupby_sum (keys : list (option Z)) (values : list R)
  : list (Z * R) :=
  fold_left (fun groups kv =>
               match fst kv with
               | Some k => group_add k (snd kv) groups
               | None => groups
               end)
            (combine keys values) [].

Module StateIndicators.
Record t : Type := {
  state : string;
  total_enrollments : Z;
  saturation_index : Saturation.t;
  volatility_index : Volatility.t
}.
End StateIndicators.

(** The dictionary [forecast_enrollment_trend] returns: whatever
    [simple_linear_forecast] returned, its error included, with the two
    keys added to it. *)
Module Trend.
Record t : Type := {
  fit : result Forecast.t;
  historical_days : Z;
  last_date : option string
}.
End Trend.

Section Aggregation.

(** [df.select_dtypes(include=[np.number]).columns.tolist()]: the columns
    pandas holds with a numeric dtype, in column order. *)
Variable numeric_columns : DataFrame -> list string.

(** [pd.to_datetime(cell, errors='coerce', dayfirst=True)]: the date the
    cell names, as a number on the time line, or NaT. *)
Variable to_datetime : cell -> option Z.

(** [str(timestamp.date())]. *)
Variable date_string : Z -> string.

(** The rows [calculate_state_indicators] works on. *)
Definition state_rows (df : DataFrame) (state : string) : DataFrame :=
  if has_column df "state"
  then filter_rows df (fun r => cell_is state (dict_get r "state" Missing))
  else df.

(** The daily series both functions build: the given column summed per
    date. *)
Definition daily_sums (df : DataFrame) (column : string) : list (Z * R) :=
  groupby_sum (map to_datetime (get_column df "date"))
              (map cell_value (get_column df column)).

Definition calculate_state_indicators (df : DataFrame) (state : string)
  : result StateIndicators.t :=
  let state_df := state_rows df state in
  if df_empty state_df then Error ("No data for " ++ state)
  else
    let numeric_cols := numeric_columns state_df in
    let total :=
      match numeric_cols with
      | [] => 0
      | _ => Num.sum (map (column_sum state_df) numeric_cols)
      end in
    let saturation := calculate_saturation_index (python_int total) state in
    let volatility :=
      if has_column state_df "date" then
        let daily_totals :=
          match numeric_cols with
          | [] => []
          | first :: _ => map snd (daily_sums state_df first)
          end in
        calculate_volatility_index daily_totals
      else {| Volatility.value := 0; Volatility.status := "no_date_data" |} in
    Ok {| StateIndicators.state := state;
          StateIndicators.total_enrollments := python_int total;
          StateIndicators.saturation_index := saturation;
          StateIndicators.volatility_index := volatility |}.

Definition forecast_enrollment_trend (df : DataFrame) : result Trend.t :=
  if df_empty df || negb (has_column df "date")
  then Error "Cannot forecast without date column"
  else
    let df :=
      filter_rows df (fun r =>
        match to_datetime (dict_get r "date" Missing) with
        | Some _ => true
        | None => false
        end) in
    match numeric_columns df with
    | [] => Error "No numeric columns found"
    | first :: _ =>
        let daily_totals := daily_sums df first in
        let forecast := simple_linear_forecast (map snd daily_totals) 30 in
        Ok {| Trend.fit := forecast;
              Trend.historical_days := Z.of_nat (List.length daily_totals);
              Trend.last_date :=
                match rev daily_totals with
                | [] => None
                | (d, _) :: _ => Some (date_string d)
                end |}
    end.

End Aggregation.

(** ** Reference descriptions *)

(** The positional inner join of two coerced columns: the value pairs of
    the rows on which both columns hold a number, in row order. *)
Definition jointly_valid (s1 s2 : list (option R)) : list (R * R) :=
  flat_map (fun p => match p with
                     | (Some x, Some y) => [(x, y)]
                     | _ => []
                     end) (combine s1 s2).

(** The cells of the upper triangle of a matrix over the columns [cols],
    each with the positions and the names of its two columns. *)
Definition upper_cells (cols : list string)
  : list ((nat * string) * (nat * string)) :=
  flat_map (fun ic1 =>
    map (pair ic1)
        (filter (fun jc2 => (fst ic1 <? fst jc2)%nat) (enumerate cols)))
    (enumerate cols).

(** What one cell contributes to the ranking: its pair, unless its
    correlation is undefined. *)
Definition cell_pair (corr_matrix : CorrMatrix)
  (c : (nat * string) * (nat * string)) : list Pair.t :=
  match loc corr_matrix (snd (fst c)) (snd (snd c)) with
  | Some r => [ {| Pair.pair := snd (fst c) ++ " vs " ++ snd (snd c);
                   Pair.correlation := r |} ]
  | None => []
  end.

(** "At least as strong as": the order of the ranking. *)
Definition stronger (a b : Pair.t) : Prop :=
  Rabs (Pair.correlation b) <= Rabs (Pair.correlation a).

(** ** Sample tables *)

(** A table with the columns [a = 1..5] and [b = 5..1]. *)
Definition table_ab : DataFrame :=
  {| columns := ["a"; "b"];
     rows := [ [("a", Number 1); ("b", Number 5)];
               [("a", Number 2); ("b", Number 4)];
               [("a", Number 3); ("b", Number 3)];
               [("a", Number 4); ("b", Number 2)];
               [("a", Number 5); ("b", Number 1)] ] |}.

(** A table with the single column [x = 0, 3, 6]. *)
Definition table_x : DataFrame :=
  {| columns := ["x"];
     rows := [ [("x", Number 0)]; [("x", Number 3)]; [("x", Number 6)] ] |}.

(** A correlation matrix over the columns [a], [b], [c] in which the
    correlation of [b] and [c] is undefined. *)
Definition sample_matrix : CorrMatrix :=
  {| cm_columns := ["a"; "b"; "c"];
     loc := fun col1 col2 =>
       if String.eqb col1 col2 then Some 1
       else if (String.eqb col1 "a" && String.eqb col2 "b")
               || (String.eqb col1 "b" && String.eqb col2 "a") then Some 0.2
       else if (String.eqb col1 "a" && String.eqb col2 "c")
               || (String.eqb col1 "c" && String.eqb col2 "a") then Some (-0.9)
       else None |}.

(** A table of daily counts for two states, a reading of its dates as day
    numbers, and its one numeric column. *)
Definition table_states : DataFrame :=
  {| columns := ["date"; "state"; "count"];
     rows := [ [("date", Text "01-01-2025"); ("state", Text "Kerala");
                ("count", Number 10)];
               [("date", Text "02-01-2025"); ("state", Text "Kerala");
                ("count", Number 30)];
               [("date", Text "02-01-2025"); ("state", Text "Punjab");
                ("count", Number 7)];
               [("date", Text "soon"); ("state", Text "Kerala");
                ("count", Number 2)] ] |}.

Definition sample_to_datetime (c : cell) : option Z :=
  match c with
  | Text s =>
      if String.eqb s "01-01-2025" then Some 20089%Z
      else if String.eqb s "02-01-2025" then Some 20090%Z
      else None
  | _ => None
  end.

Definition sample_numeric_columns (df : DataFrame) : list string := ["count"].

(** * Properties *)

(** ** Rounding *)

Lemma round_half_even_spec (x : R) (z : Z) :
  IZR z - 1 / 2 < x < IZR z + 1 / 2 -> Num.round_half_even x = z.
Proof.
  intros [Hlo Hhi]. unfold Num.round_half_even.
  pose proof (Zfloor_bound x) as [Hf1 Hf2].
  assert (Hcases : Zfloor x = z \/ Zfloor x = (z - 1)%Z).
  { assert (Zfloor x < z + 1)%Z by (apply lt_IZR; rewrite plus_IZR; lra).
    assert (z - 1 - 1 < Zfloor x)%Z
      by (apply lt_IZR; rewrite !minus_IZR; lra).
    lia. }
  destruct Hcases as [E | E]; rewrite E in *.
  - destruct (Rlt_dec (x - IZR z) (1 / 2)); [reflexivity | lra].
  - rewrite minus_IZR in *.
    destruct (Rlt_dec (x - (IZR z - 1)) (1 / 2)); [lra |].
    destruct (Rlt_dec (1 / 2) (x - (IZR z - 1))); [f_equal; lia | lra].
Qed.

Lemma round_half_even_bound (x : R) :
  IZR (Num.round_half_even x) - 1 / 2 <= x <= IZR (Num.round_half_even x) + 1 / 2.
Proof.
  unfold Num.round_half_even.
  pose proof (Zfloor_bound x) as [Hf1 Hf2].
  destruct (Rlt_dec (x - IZR (Zfloor x)) (1 / 2)) as [H1 | H1]; [lra |].
  destruct (Rlt_dec (1 / 2) (x - IZR (Zfloor x))) as [H2 | H2].
  - rewrite plus_IZR. lra.
  - destruct (Z.even (Zfloor x)); [lra | rewrite plus_IZR; lra].
Qed.

Lemma round_half_even_mono (x y : R) :
  x <= y -> (Num.round_half_even x <= Num.round_half_even y)%Z.
Proof.
  intros Hxy.
  destruct (Z_le_gt_dec (Num.round_half_even x) (Num.round_half_even y))
    as [H | H]; [exact H | exfalso].
  pose proof (round_half_even_bound x) as [Hx _].
  pose proof (round_half_even_bound y) as [_ Hy].
  assert (Hz : (Num.round_half_even y + 1 <= Num.round_half_even x)%Z) by lia.
  apply IZR_le in Hz. rewrite plus_IZR in Hz.
  assert (E : x = y) by lra.
  subst y. lia.
Qed.

Lemma round_half_even_IZR (z : Z) : Num.round_half_even (IZR z) = z.
Proof. apply round_half_even_spec; lra. Qed.

Lemma round1_mono (x y : R) : x <= y -> Num.round1 x <= Num.round1 y.
Proof.
  intros H. unfold Num.round1.
  assert (Hz : (Num.round_half_even (x * 10) <= Num.round_half_even (y * 10))%Z)
    by (apply round_half_even_mono; lra).
  apply IZR_le in Hz. lra.
Qed.

Lemma round1_tenths (z : Z) : Num.round1 (IZR z / 10) = IZR z / 10.
Proof.
  unfold Num.round1.
  replace (IZR z / 10 * 10) with (IZR z) by lra.
  now rewrite round_half_even_IZR.
Qed.

Lemma round1_0 : Num.round1 0 = 0.
Proof.
  replace 0 with (IZR 0 / 10) at 1 by lra. rewrite round1_tenths. lra.
Qed.

Lemma round1_120 : Num.round1 120 = 120.
Proof.
  replace 120 with (IZR 1200 / 10) at 1 by lra. rewrite round1_tenths. lra.
Qed.

Lemma round1_near (x : R) (z : Z) :
  IZR z / 10 - 1 / 20 < x < IZR z / 10 + 1 / 20 -> Num.round1 x = IZR z / 10.
Proof.
  intros H. unfold Num.round1.
  rewrite (round_half_even_spec _ z) by lra. reflexivity.
Qed.


(** ** Dictionaries *)

Lemma dict_get_ind {A : Type} (P : A -> Prop) (d : list (string * A))
  (key : string) (default : A) :
  Forall (fun kv => P (snd kv)) d -> P default -> P (dict_get d key default).
Proof.
  intros Hd Hdef. induction Hd as [| [k v] d' Hkv _ IH]; simpl.
  - exact Hdef.
  - destruct (String.eqb k key); [exact Hkv | exact IH].
Qed.


Lemma population_positive (state : string) :
  0 < dict_get CONFIG.population state 50.
Proof.
  apply dict_get_ind; [| lra].
  unfold CONFIG.population.
  repeat (apply Forall_cons; [simpl; lra |]). apply Forall_nil.
Qed.

(** ** Saturation index *)

Lemma saturation_raw_le_120 (t : Z) (state : string) :
  saturation_raw t state <= 120.
Proof. unfold saturation_raw. apply Rmin_r. Qed.

Lemma saturation_raw_mono (t1 t2 : Z) (state : string) :
  (t1 <= t2)%Z -> saturation_raw t1 state <= saturation_raw t2 state.
Proof.
  intros H. unfold saturation_raw.
  pose proof (population_positive state) as Hp.
  set (p := dict_get CONFIG.population state 50) in *.
  apply IZR_le in H.
  apply Rle_min_compat_r.
  apply Rmult_le_compat_r; [lra |].
  apply Rmult_le_compat_r; [| exact H].
  apply Rlt_le, Rinv_0_lt_compat. lra.
Qed.

Lemma saturation_raw_nonneg (t : Z) (state : string) :
  (0 <= t)%Z -> 0 <= saturation_raw t state.
Proof.
  intros H. unfold saturation_raw.
  pose proof (population_positive state) as Hp.
  set (p := dict_get CONFIG.population state 50) in *.
  apply IZR_le in H.
  apply Rmin_glb; [| lra].
  apply Rmult_le_pos; [| lra].
  apply Rmult_le_pos; [exact H |].
  apply Rlt_le, Rinv_0_lt_compat. lra.
Qed.

Lemma saturation_status_cases (t : Z) (state : string) :
  let index := saturation_raw t state in
  let r := calculate_saturation_index t state in
  (index < 40 -> Saturation.status r = "critical") /\
  (40 <= index < 60 -> Saturation.status r = "warning") /\
  (60 <= index -> Saturation.status r = "healthy").
Proof.
  cbv zeta. unfold calculate_saturation_index; simpl.
  unfold CONFIG.saturation_critical, CONFIG.saturation_warning.
  destruct (Rlt_dec (saturation_raw t state) 40);
    destruct (Rlt_dec (saturation_raw t state) 60);
    repeat split; intros; try reflexivity; lra.
Qed.



(** C8, as amended.  For a fixed state the saturation value, before and
    after rounding, does not decrease when the total activity grows, and it
    never exceeds 120; it is at least 0 whenever the total activity is not
    negative. *)
Theorem saturation_monotone_bounded (s : string) (t1 t2 : Z) :
  (t1 <= t2)%Z ->
  saturation_raw t1 s <= saturation_raw t2 s /\
  Saturation.value (calculate_saturation_index t1 s)
    <= Saturation.value (calculate_saturation_index t2 s) /\
  Saturation.value (calculate_saturation_index t1 s) <= 120 /\
  ((0 <= t1)%Z -> 0 <= Saturation.value (calculate_saturation_index t1 s)).
Proof.
  intros H12. unfold calculate_saturation_index; simpl.
  pose proof (saturation_raw_mono t1 t2 s H12) as Hm.
  split; [exact Hm |].
  split; [apply round1_mono; exact Hm |].
  split.
  - rewrite <- round1_120. apply round1_mono, saturation_raw_le_120.
  - intros H0. rewrite <- round1_0.
    apply round1_mono, saturation_raw_nonneg, H0.
Qed.

Lemma saturation_monotone_bounded_witness :
  Saturation.value (calculate_saturation_index (-5) "Kerala")
    <= Saturation.value (calculate_saturation_index 10000000 "Kerala") /\
  0 <= Saturation.value (calculate_saturation_index 10000000 "Kerala") <= 120.
Proof.
  split.
  - apply (saturation_monotone_bounded "Kerala" (-5) 10000000). lia.
  - pose proof (saturation_monotone_bounded "Kerala" 10000000 10000000)
      as (_ & _ & Hhi & Hlo); [lia |].
    split; [apply Hlo; lia | exact Hhi].
Defined.

(** C8 as it is worded fails on a negative total: minus ten million for
    Kerala is reported as -27.8. *)
Lemma saturation_negative_total_cex :
  Saturation.value (calculate_saturation_index (-10000000) "Kerala") = -27.8 /\
  ~ (0 <= Saturation.value (calculate_saturation_index (-10000000) "Kerala")).
Proof.
  assert (E : saturation_raw (-10000000) "Kerala" = - 250 / 9).
  { unfold saturation_raw; simpl. rewrite Rmin_left; lra. }
  assert (Hv : Saturation.value (calculate_saturation_index (-10000000) "Kerala")
               = -27.8).
  { unfold calculate_saturation_index; simpl. rewrite E.
    rewrite (round1_near _ (-278)); lra. }
  split; [exact Hv | rewrite Hv; lra].
Qed.

(** ** Sums, means and deviations *)

Lemma sum_squares_nonneg (m : R) (l : list R) :
  0 <= Num.sum (map (fun x => (x - m) * (x - m)) l).
Proof.
  induction l as [| x l IH]; simpl; [lra |].
  pose proof (Rle_0_sqr (x - m)) as H. unfold Rsqr in H. lra.
Qed.

Lemma ssd_nonneg (l : list R) : 0 <= Num.ssd l.
Proof. apply sum_squares_nonneg. Qed.

Lemma len_pos (l : list R) : l <> [] -> 0 < Num.len l.
Proof.
  intros H. unfold Num.len. destruct l as [| x l]; [congruence |].
  apply lt_0_INR. simpl. lia.
Qed.

Lemma sum_nonneg (l : list R) : Forall (fun x => 0 <= x) l -> 0 <= Num.sum l.
Proof. induction 1; simpl; lra. Qed.

Lemma mean_nonneg (l : list R) : Forall (fun x => 0 <= x) l -> 0 <= Num.mean l.
Proof.
  intros H. unfold Num.mean. destruct l as [| x l].
  - simpl. unfold Rdiv. rewrite Rmult_0_l. lra.
  - apply Rmult_le_pos; [apply sum_nonneg, H |].
    apply Rlt_le, Rinv_0_lt_compat, len_pos. discriminate.
Qed.


Lemma sum_repeat (c : R) (n : nat) : Num.sum (repeat c n) = INR n * c.
Proof.
  induction n as [| n IH]; [simpl; lra |].
  rewrite S_INR. simpl. rewrite IH. lra.
Qed.

Lemma mean_repeat (c : R) (n : nat) : (1 <= n)%nat -> Num.mean (repeat c n) = c.
Proof.
  intros Hn. unfold Num.mean, Num.len. rewrite sum_repeat, repeat_length.
  field. apply not_0_INR. lia.
Qed.

Lemma sum_deviations_repeat (c : R) (n : nat) :
  Num.sum (map (fun x => (x - c) * (x - c)) (repeat c n)) = 0.
Proof. induction n as [| n IH]; simpl; [| rewrite IH]; lra. Qed.

Lemma pstd_repeat (c : R) (n : nat) : (1 <= n)%nat -> Num.pstd (repeat c n) = 0.
Proof.
  intros Hn. unfold Num.pstd, Num.ssd. rewrite (mean_repeat c n Hn).
  rewrite sum_deviations_repeat. unfold Rdiv. rewrite Rmult_0_l. apply sqrt_0.
Qed.

(** ** Volatility index *)

Lemma volatility_short (l : list R) :
  (List.length l < 2)%nat ->
  calculate_volatility_index l
  = {| Volatility.value := 0; Volatility.status := "insufficient_data" |}.
Proof.
  intros H. unfold calculate_volatility_index.
  apply Nat.ltb_lt in H. now rewrite H.
Qed.

Lemma volatility_no_activity (l : list R) :
  (2 <= List.length l)%nat -> Num.mean l = 0 ->
  calculate_volatility_index l
  = {| Volatility.value := 0; Volatility.status := "no_activity" |}.
Proof.
  intros H Hm. unfold calculate_volatility_index.
  apply Nat.ltb_ge in H. rewrite H.
  destruct (Req_dec_T (Num.mean l) 0); [reflexivity | contradiction].
Qed.

Lemma volatility_general (l : list R) :
  (2 <= List.length l)%nat -> Num.mean l <> 0 ->
  let cv := volatility_raw l in
  let r := calculate_volatility_index l in
  Volatility.value r = Num.round1 cv /\
  (cv < 50 -> Volatility.status r = "stable") /\
  (50 <= cv < 100 -> Volatility.status r = "moderate") /\
  (100 <= cv < 150 -> Volatility.status r = "high") /\
  (150 <= cv -> Volatility.status r = "critical").
Proof.
  intros H Hm. cbv zeta. unfold calculate_volatility_index.
  apply Nat.ltb_ge in H. rewrite H.
  destruct (Req_dec_T (Num.mean l) 0); [contradiction |].
  unfold CONFIG.volatility_high.
  destruct (Rlt_dec (volatility_raw l) 50);
    destruct (Rlt_dec (volatility_raw l) 100);
    destruct (Rlt_dec (volatility_raw l) 150); simpl;
    repeat split; intros; try reflexivity; lra.
Qed.





(** C9, as amended.  The volatility value is not negative whenever the mean
    of the daily totals is not negative, as it is when no daily total is
    negative; and a constant sequence [c, c, ...] of length at least 2 with
    [c <> 0] has value 0 and status stable. *)
Theorem volatility_nonneg_constant (daily_values : list R) :
  (0 <= Num.mean daily_values ->
     0 <= Volatility.value (calculate_volatility_index daily_values)) /\
  (Forall (fun x => 0 <= x) daily_values ->
     0 <= Volatility.value (calculate_volatility_index daily_values)) /\
  (forall (c : R) (n : nat),
     c <> 0 -> (2 <= n)%nat -> daily_values = repeat c n ->
     Volatility.value (calculate_volatility_index daily_values) = 0 /\
     Volatility.status (calculate_volatility_index daily_values) = "stable").
Proof.
  assert (Hmain : 0 <= Num.mean daily_values ->
                  0 <= Volatility.value (calculate_volatility_index daily_values)).
  { intros Hm.
    destruct (Nat.lt_ge_cases (List.length daily_values) 2) as [Hs | Hl].
    - rewrite volatility_short by exact Hs. simpl. lra.
    - destruct (Req_dec_T (Num.mean daily_values) 0) as [E | Hne].
      + rewrite volatility_no_activity by assumption. simpl. lra.
      + pose proof (volatility_general daily_values Hl Hne) as (Hv & _).
        cbv zeta in Hv. rewrite Hv, <- round1_0. apply round1_mono.
        unfold volatility_raw.
        apply Rmult_le_pos; [| lra].
        apply Rmult_le_pos; [apply sqrt_pos |].
        apply Rlt_le, Rinv_0_lt_compat. lra. }
  split; [exact Hmain |].
  split; [intros H; apply Hmain, mean_nonneg, H |].
  intros c n Hc Hn ->.
  assert (Hm : Num.mean (repeat c n) = c) by (apply mean_repeat; lia).
  assert (Hp : Num.pstd (repeat c n) = 0) by (apply pstd_repeat; lia).
  pose proof (volatility_general (repeat c n)) as H. cbv zeta in H.
  destruct H as (Hv & Hs & _);
    [rewrite repeat_length; exact Hn | rewrite Hm; exact Hc |].
  assert (E : volatility_raw (repeat c n) = 0).
  { unfold volatility_raw. rewrite Hm, Hp. unfold Rdiv. lra. }
  rewrite E in Hv, Hs. split.
  - rewrite Hv. apply round1_0.
  - apply Hs. lra.
Qed.

Lemma volatility_nonneg_constant_witness :
  0 <= Volatility.value (calculate_volatility_index [100; 100; 100; 100]) /\
  Volatility.value (calculate_volatility_index [100; 100; 100; 100]) = 0 /\
  Volatility.status (calculate_volatility_index [100; 100; 100; 100]) = "stable".
Proof.
  pose proof (volatility_nonneg_constant [100; 100; 100; 100]) as (_ & Hn & Hc).
  split.
  - apply Hn. repeat constructor; lra.
  - apply (Hc 100 4%nat); [lra | lia | reflexivity].
Defined.

(** C9 as it is worded fails on totals with a negative mean: the daily
    totals -1 and -3 have mean -2 and population standard deviation 1, so
    the value is -50. *)
Lemma volatility_negative_mean_cex :
  Volatility.value (calculate_volatility_index [-1; -3]) = -50 /\
  ~ (0 <= Volatility.value (calculate_volatility_index [-1; -3])).
Proof.
  assert (Hm : Num.mean [-1; -3] = -2).
  { unfold Num.mean, Num.len; simpl. lra. }
  assert (Hp : Num.pstd [-1; -3] = 1).
  { unfold Num.pstd, Num.ssd. rewrite Hm. unfold Num.len; simpl.
    replace ((-1 - -2) * (-1 - -2) + ((-3 - -2) * (-3 - -2) + 0)) with 2 by lra.
    replace (2 / (1 + 1)) with 1 by lra. apply sqrt_1. }
  pose proof (volatility_general [-1; -3]) as H. cbv zeta in H.
  destruct H as (Hv & _); [simpl; lia | rewrite Hm; lra |].
  assert (E : volatility_raw [-1; -3] = -50).
  { unfold volatility_raw. rewrite Hm, Hp. lra. }
  rewrite E in Hv.
  assert (Hv' : Volatility.value (calculate_volatility_index [-1; -3]) = -50).
  { rewrite Hv. rewrite (round1_near _ (-500)); lra. }
  split; [exact Hv' | rewrite Hv'; lra].
Qed.

(** ** Trend forecast *)

Lemma sum_pow2_nonneg (m : R) (l : list R) :
  0 <= Num.sum (map (fun x => (x - m) ^ 2) l).
Proof.
  induction l as [| x l IH]; [simpl; lra |].
  cbn [map Num.sum fold_right]. unfold Num.sum in IH.
  pose proof (pow2_ge_0 (x - m)) as H. lra.
Qed.

(** The index positions [0 .. n-1] are not all equal once there are two of
    them, so the guard on the denominator never fires on a fitted series. *)
Lemma fit_denominator_pos (time_series : list R) :
  (2 <= List.length time_series)%nat -> 0 < fit_denominator time_series.
Proof.
  intros Hn. unfold fit_denominator, fit_X, Num.arange.
  set (m := Num.mean _). clearbody m.
  destruct (List.length time_series) as [| [| n]]; [lia | lia |].
  cbn [seq map Num.sum fold_right].
  pose proof (sum_pow2_nonneg m (map INR (seq 2 n))) as Hrest.
  unfold Num.sum in Hrest.
  change (INR 0) with 0. change (INR 1) with 1.
  nra.
Qed.

Lemma sum_arange_0 (n : nat) :
  Num.sum (Num.arange 0 n) = INR n * (INR n - 1) / 2.
Proof.
  unfold Num.arange. induction n as [| n IH].
  - simpl. lra.
  - rewrite seq_S, map_app. simpl app.
    assert (Happ : forall a b, Num.sum (a ++ b) = Num.sum a + Num.sum b).
    { intros a b. induction a as [| x a IHa]; simpl; [lra | rewrite IHa; lra]. }
    rewrite Happ, IH, S_INR. simpl. lra.
Qed.

Lemma fit_X_mean (time_series : list R) :
  time_series <> [] ->
  Num.mean (fit_X time_series) = (INR (List.length time_series) - 1) / 2.
Proof.
  intros Hne. unfold Num.mean, fit_X. rewrite sum_arange_0.
  unfold Num.len, Num.arange. rewrite length_map, length_seq.
  field. apply not_0_INR. destruct time_series; [congruence | simpl; lia].
Qed.

Lemma forecast_short (time_series : list R) (periods : Z) :
  (List.length time_series < 10)%nat ->
  simple_linear_forecast time_series periods
  = Error "Insufficient data for forecasting".
Proof.
  intros H. unfold simple_linear_forecast.
  apply Nat.ltb_lt in H. now rewrite H.
Qed.

(** What a fitted forecast holds. *)
Lemma forecast_ok_inv (time_series : list R) (periods : Z) (r : Forecast.t) :
  simple_linear_forecast time_series periods = Ok r ->
  let X := Num.arange 0 (List.length time_series) in
  let X_mean := Num.mean X in
  let y_mean := Num.mean time_series in
  let ss_tot := Num.sum (map (fun y => (y - y_mean) ^ 2) time_series) in
  (10 <= List.length time_series)%nat /\
  Forecast.slope r
  = Num.sum (Num.map2 (fun x y => (x - X_mean) * (y - y_mean)) X time_series)
    / Num.sum (map (fun x => (x - X_mean) ^ 2) X) /\
  Forecast.intercept r = y_mean - Forecast.slope r * X_mean /\
  Forecast.forecast r
  = map (fun x => Forecast.slope r * x + Forecast.intercept r)
        (Num.arange (List.length time_series) (Z.to_nat periods)) /\
  (ss_tot = 0 -> Forecast.r_squared r = 0) /\
  Forecast.trend r
  = (if Rlt_dec 0 (Forecast.slope r) then "increasing"
     else if Rlt_dec (Forecast.slope r) 0 then "decreasing"
     else "flat").
Proof.
  cbv zeta. unfold simple_linear_forecast.
  destruct (List.length time_series <? 10)%nat eqn:Hlen; [discriminate |].
  apply Nat.ltb_ge in Hlen.
  destruct (Req_dec_T (fit_denominator time_series) 0); [discriminate |].
  intros H. injection H as <-. cbn [Forecast.slope Forecast.intercept
    Forecast.forecast Forecast.r_squared Forecast.trend].
  repeat split; try reflexivity; try exact Hlen.
  intros Hss. unfold fit_ss_tot.
  destruct (Rlt_dec 0 _) as [Hpos | _]; [lra | reflexivity].
Qed.

Lemma forecast_fits (time_series : list R) (periods : Z) :
  (10 <= List.length time_series)%nat ->
  exists r, simple_linear_forecast time_series periods = Ok r.
Proof.
  intros H. unfold simple_linear_forecast.
  pose proof (fit_denominator_pos time_series ltac:(lia)) as Hd.
  apply Nat.ltb_ge in H. rewrite H.
  destruct (Req_dec_T (fit_denominator time_series) 0); [lra |].
  eexists. reflexivity.
Qed.

(** C4.  A series of fewer than 10 observations is answered by the
    insufficient-data error, which carries no slope and no intercept; a
    series of at least 10 is always fitted; and a fitted result has slope
    [sum((x - xm)(y - ym)) / sum((x - xm)^2)] over the index positions
    [0 .. n-1], whose mean [xm] is [(n - 1) / 2], intercept
    [ym - slope * xm], and an R-squared of 0 whenever the total sum of
    squares is 0. *)
Theorem forecast_fit (time_series : list R) (periods : Z) :
  let X := Num.arange 0 (List.length time_series) in
  let X_mean := Num.mean X in
  let y_mean := Num.mean time_series in
  let ss_tot := Num.sum (map (fun y => (y - y_mean) ^ 2) time_series) in
  ((List.length time_series < 10)%nat ->
     simple_linear_forecast time_series periods
     = Error "Insufficient data for forecasting") /\
  ((10 <= List.length time_series)%nat ->
     exists r, simple_linear_forecast time_series periods = Ok r) /\
  (forall r, simple_linear_forecast time_series periods = Ok r ->
     Forecast.slope r
     = Num.sum (Num.map2 (fun x y => (x - X_mean) * (y - y_mean)) X time_series)
       / Num.sum (map (fun x => (x - X_mean) ^ 2) X) /\
     X_mean = (INR (List.length time_series) - 1) / 2 /\
     0 < Num.sum (map (fun x => (x - X_mean) ^ 2) X) /\
     Forecast.intercept r = y_mean - Forecast.slope r * X_mean /\
     (ss_tot = 0 -> Forecast.r_squared r = 0)).
Proof.
  cbv zeta. split; [apply forecast_short |]. split; [apply forecast_fits |].
  intros r Hr.
  pose proof (forecast_ok_inv _ _ _ Hr) as (Hlen & Hs & Hi & _ & Hr2 & _).
  split; [exact Hs |]. split.
  - apply (fit_X_mean time_series). intros E. subst. simpl in Hlen. lia.
  - split; [apply (fit_denominator_pos time_series); lia |].
    split; [exact Hi | exact Hr2].
Qed.

Lemma forecast_fit_witness :
  exists r,
    simple_linear_forecast [5; 8; 11; 14; 17; 20; 23; 26; 29; 32] 30 = Ok r /\
    Forecast.intercept r
    = Num.mean [5; 8; 11; 14; 17; 20; 23; 26; 29; 32]
      - Forecast.slope r * Num.mean (Num.arange 0 10).
Proof.
  pose proof (forecast_fit [5; 8; 11; 14; 17; 20; 23; 26; 29; 32] 30)
    as (_ & Hfit & Hshape).
  cbv zeta in Hfit, Hshape.
  destruct Hfit as [r Hr]; [simpl; lia |].
  exists r. split; [exact Hr |].
  destruct (Hshape r Hr) as (_ & _ & _ & Hi & _). exact Hi.
Defined.

Lemma forecast_length (time_series : list R) (periods : Z) (r : Forecast.t) :
  simple_linear_forecast time_series periods = Ok r ->
  List.length (Forecast.forecast r) = Z.to_nat periods.
Proof.
  intros Hr.
  pose proof (forecast_ok_inv _ _ _ Hr) as (_ & _ & _ & Hf & _).
  rewrite Hf. unfold Num.arange. now rewrite !length_map, length_seq.
Qed.

Lemma forecast_nth (time_series : list R) (periods : Z) (r : Forecast.t)
  (k : nat) :
  simple_linear_forecast time_series periods = Ok r ->
  (k < Z.to_nat periods)%nat ->
  nth k (Forecast.forecast r) 0
  = Forecast.slope r * INR (List.length time_series + k) + Forecast.intercept r.
Proof.
  intros Hr Hk.
  pose proof (forecast_ok_inv _ _ _ Hr) as (_ & _ & _ & Hf & _).
  rewrite Hf. unfold Num.arange. rewrite map_map.
  set (g := fun i : nat => Forecast.slope r * INR i + Forecast.intercept r).
  rewrite (nth_indep _ 0 (g 0%nat)) by (now rewrite length_map, length_seq).
  rewrite (map_nth g), seq_nth by exact Hk. reflexivity.
Qed.



(** ** Interpretation of a correlation *)

(** C10.  For a correlation [r] that is a number, the direction is negative
    whenever [r <= 0], so also at exactly 0, and positive only when
    [r > 0]; the strength is chosen by [|r|] against 0.1, 0.3, 0.5 and
    0.7. *)
Theorem interpret_correlation_labels (r : R) :
  exists strength direction : string,
    interpret_correlation (Some r)
    = strength ++ " " ++ direction ++ " correlation" /\
    (r <= 0 -> direction = "negative") /\
    (direction = "positive" <-> 0 < r) /\
    (Rabs r < 0.1 -> strength = "Negligible") /\
    (0.1 <= Rabs r < 0.3 -> strength = "Weak") /\
    (0.3 <= Rabs r < 0.5 -> strength = "Moderate") /\
    (0.5 <= Rabs r < 0.7 -> strength = "Strong") /\
    (0.7 <= Rabs r -> strength = "Very Strong") /\
    interpret_correlation (Some 0) = "Negligible negative correlation".
Proof.
  assert (Hzero : interpret_correlation (Some 0)
                  = "Negligible negative correlation").
  { unfold interpret_correlation. rewrite Rabs_R0.
    destruct (Rlt_dec 0 0); [lra |].
    destruct (Rlt_dec 0 0.1); [reflexivity | lra]. }
  unfold interpret_correlation at 1.
  destruct (Rlt_dec 0 r) as [Hd | Hd];
    destruct (Rlt_dec (Rabs r) 0.1) as [H1 | H1];
    [| destruct (Rlt_dec (Rabs r) 0.3) as [H2 | H2];
       [| destruct (Rlt_dec (Rabs r) 0.5) as [H3 | H3];
          [| destruct (Rlt_dec (Rabs r) 0.7) as [H4 | H4]]]
     | | destruct (Rlt_dec (Rabs r) 0.3) as [H2 | H2];
       [| destruct (Rlt_dec (Rabs r) 0.5) as [H3 | H3];
          [| destruct (Rlt_dec (Rabs r) 0.7) as [H4 | H4]]]].
  all: eexists; eexists; split; [reflexivity |].
  all: split; [intros; first [reflexivity | lra] |].
  all: split; [split; intros H; first [discriminate H | reflexivity | lra] |].
  all: repeat (split; [intros; first [reflexivity | lra] |]).
  all: exact Hzero.
Qed.

(** ** Pairwise correlation *)

Lemma select_joint_fst (s1 s2 : list (option R)) :
  dropna (select s1 (Num.map2 andb (notna s1) (notna s2)))
  = map fst (jointly_valid s1 s2).
Proof.
  revert s2. induction s1 as [| a s1 IH]; intros [| b s2]; try reflexivity.
  specialize (IH s2). unfold select, Num.map2, notna, jointly_valid in *.
  destruct a as [x |], b as [y |]; simpl; rewrite ?IH; reflexivity.
Qed.

Lemma select_joint_snd (s1 s2 : list (option R)) :
  dropna (select s2 (Num.map2 andb (notna s1) (notna s2)))
  = map snd (jointly_valid s1 s2).
Proof.
  revert s2. induction s1 as [| a s1 IH]; intros [| b s2]; try reflexivity.
  specialize (IH s2). unfold select, Num.map2, notna, jointly_valid in *.
  destruct a as [x |], b as [y |]; simpl; rewrite ?IH; reflexivity.
Qed.




(** ** Univariate summary *)

(** [Series.std] divides by one less than the number of observations. *)
Lemma sample_std_spec (l : list R) :
  ((2 <= List.length l)%nat ->
     exists sd, Num.sample_std l = Some sd /\ 0 <= sd /\
                sd * sd * (Num.len l - 1) = Num.ssd l) /\
  ((List.length l <= 1)%nat -> Num.sample_std l = None).
Proof.
  unfold Num.sample_std. split; intros H.
  - apply Nat.leb_gt in H as Hb. rewrite Hb.
    eexists. split; [reflexivity |]. split; [apply sqrt_pos |].
    assert (Hn : 0 < Num.len l - 1).
    { unfold Num.len. apply le_INR in H. simpl in H. lra. }
    rewrite sqrt_sqrt.
    + field. lra.
    + apply Rmult_le_pos; [apply ssd_nonneg |].
      apply Rlt_le, Rinv_0_lt_compat, Hn.
  - apply Nat.leb_le in H. now rewrite H.
Qed.

(** C2, as amended.  On a column whose cleaned series is not empty the
    summary holds count, mean, min, max, median, 25th and 75th percentile,
    skewness and kurtosis of the cleaned series, and in its std field the
    sample standard deviation of that series: the squared deviations are
    divided by the count minus one, and the field is undefined for a
    single observation. *)
Theorem univariate_summary (parse_number : string -> option R)
  (median : list R -> option R) (quantile : list R -> R -> option R)
  (skew kurtosis : list R -> option R) (df : DataFrame) (column : string) :
  has_column df column = true ->
  let series := dropna (to_numeric parse_number (get_column df column)) in
  series <> [] ->
  exists r,
    univariate_analysis parse_number median quantile skew kurtosis df column
    = Ok r /\
    Univariate.count r = Z.of_nat (List.length series) /\
    Univariate.mean r = Num.mean series /\
    Univariate.min r = Num.minimum series /\
    Univariate.max r = Num.maximum series /\
    Univariate.median r = median series /\
    Univariate.q25 r = quantile series 0.25 /\
    Univariate.q75 r = quantile series 0.75 /\
    Univariate.skewness r = skew series /\
    Univariate.kurtosis r = kurtosis series /\
    Univariate.std r = Num.sample_std series /\
    ((2 <= List.length series)%nat ->
       exists sd, Univariate.std r = Some sd /\ 0 <= sd /\
                  sd * sd * (Num.len series - 1) = Num.ssd series) /\
    (List.length series = 1%nat -> Univariate.std r = None).
Proof.
  intros Hcol series Hne. unfold univariate_analysis.
  rewrite Hcol. cbn [negb]. fold series.
  destruct (List.length series =? 0)%nat eqn:Hlen.
  - apply Nat.eqb_eq in Hlen. destruct series; [congruence | discriminate].
  - eexists. split; [reflexivity |]. cbn.
    repeat (split; [reflexivity |]).
    pose proof (sample_std_spec series) as [Hsd Hnone].
    split; [exact Hsd | intros H1; apply Hnone; lia].
Qed.

Lemma univariate_summary_witness :
  exists r,
    univariate_analysis (fun _ => None) (fun _ => None) (fun _ _ => None)
                        (fun _ => None) (fun _ => None) table_x "x" = Ok r /\
    Univariate.count r = 3%Z /\
    Univariate.std r = Num.sample_std [0; 3; 6].
Proof.
  destruct (univariate_summary (fun _ => None) (fun _ => None)
              (fun _ _ => None) (fun _ => None) (fun _ => None) table_x "x"
              eq_refl)
    as (r & Hr & Hc & _ & _ & _ & _ & _ & _ & _ & _ & Hs & _).
  - simpl. discriminate.
  - exists r. split; [exact Hr |]. split; [exact Hc | exact Hs].
Defined.

Lemma mean_036 : Num.mean [0; 3; 6] = 3.
Proof. unfold Num.mean, Num.len; simpl. lra. Qed.

Lemma ssd_036 : Num.ssd [0; 3; 6] = 18.
Proof. unfold Num.ssd. rewrite mean_036. simpl. lra. Qed.

(** C2 as it is worded fails: on the column 0, 3, 6 the std field is 3, the
    sample standard deviation, while the population standard deviation is
    the square root of 6. *)
Lemma univariate_std_is_sample_cex :
  exists r,
    univariate_analysis (fun _ => None) (fun _ => None) (fun _ _ => None)
                        (fun _ => None) (fun _ => None) table_x "x" = Ok r /\
    Univariate.std r = Some 3 /\
    Num.pstd [0; 3; 6] * Num.pstd [0; 3; 6] = 6 /\
    Univariate.std r <> Some (Num.pstd [0; 3; 6]).
Proof.
  eexists. split; [reflexivity |]. cbn [Univariate.std].
  assert (Hs : Num.sample_std [0; 3; 6] = Some 3).
  { unfold Num.sample_std. cbn [List.length Nat.leb]. rewrite ssd_036.
    unfold Num.len; simpl. f_equal.
    replace (18 / (1 + 1 + 1 - 1)) with (3 * 3) by lra.
    apply sqrt_square. lra. }
  assert (Hp : Num.pstd [0; 3; 6] * Num.pstd [0; 3; 6] = 6).
  { unfold Num.pstd. rewrite ssd_036. unfold Num.len; simpl.
    rewrite sqrt_sqrt; lra. }
  change (dropna (to_numeric (fun _ => None) (get_column table_x "x")))
    with [0; 3; 6].
  split; [exact Hs |]. split; [exact Hp |].
  rewrite Hs. intros E. injection E as E. rewrite <- E in Hp. lra.
Qed.

(** ** Ranking of the strongest correlations *)

Section Sorting.

Context {A : Type} (key : A -> R).

Lemma insert_desc_perm (x : A) (l : list A) :
  Permutation (insert_desc key x l) (x :: l).
Proof.
  induction l as [| y l IH]; simpl; [reflexivity |].
  destruct (Rlt_dec (key x) (key y)); [| reflexivity].
  rewrite IH. apply perm_swap.
Qed.

Lemma sort_desc_perm (l : list A) : Permutation (sort_desc key l) l.
Proof.
  induction l as [| x l IH]; simpl; [reflexivity |].
  rewrite insert_desc_perm. now constructor.
Qed.

Lemma insert_desc_sorted (x : A) (l : list A) :
  StronglySorted (fun a b => key b <= key a) l ->
  StronglySorted (fun a b => key b <= key a) (insert_desc key x l).
Proof.
  induction 1 as [| y l Hs IH Hy]; simpl.
  - repeat constructor.
  - destruct (Rlt_dec (key x) (key y)) as [Hlt | Hge].
    + constructor; [exact IH |].
      rewrite Forall_forall. intros b Hb.
      apply (Permutation_in _ (insert_desc_perm x l)) in Hb.
      destruct Hb as [<- | Hb]; [lra |].
      rewrite Forall_forall in Hy. now apply Hy.
    + constructor; [now constructor |].
      constructor; [lra |].
      eapply Forall_impl; [| exact Hy]. simpl. intros a Ha. lra.
Qed.

Lemma sort_desc_sorted (l : list A) :
  StronglySorted (fun a b => key b <= key a) (sort_desc key l).
Proof.
  induction l as [| x l IH]; simpl; [constructor |].
  now apply insert_desc_sorted.
Qed.

(** Whatever a sorted list keeps in its first [n] places comes before
    whatever it leaves out. *)
Lemma sorted_firstn_skipn (rel : A -> A -> Prop) (n : nat) (l : list A) :
  StronglySorted rel l ->
  forall a b, In a (firstn n l) -> In b (skipn n l) -> rel a b.
Proof.
  intros Hs. revert n. induction Hs as [| x l Hs IH Hx]; intros n a b Ha Hb.
  - destruct n; contradiction.
  - destruct n as [| n]; [contradiction |]. simpl in Ha, Hb.
    destruct Ha as [<- | Ha].
    + rewrite Forall_forall in Hx. apply Hx.
      rewrite <- (firstn_skipn n l). apply in_or_app. now right.
    + now apply (IH n).
Qed.

End Sorting.

Lemma slice_to_nonneg {A : Type} (l : list A) (n : Z) :
  (0 <= n)%Z -> slice_to l n = firstn (Z.to_nat n) l.
Proof.
  intros H. unfold slice_to.
  destruct (n <? 0)%Z eqn:E; [apply Z.ltb_lt in E; lia | reflexivity].
Qed.

Lemma in_enumerate_from {A : Type} (l : list A) (s i : nat) (c : A) :
  In (i, c) (combine (seq s (List.length l)) l)
  <-> (s <= i)%nat /\ nth_error l (i - s) = Some c.
Proof.
  revert s. induction l as [| x l IH]; intros s; simpl.
  - split; [contradiction |]. intros [_ H]. now destruct (i - s)%nat.
  - rewrite IH. split.
    + intros [E | [Hle Hn]].
      * injection E as <- <-. split; [lia |]. now rewrite Nat.sub_diag.
      * split; [lia |].
        replace (i - s)%nat with (S (i - S s)) by lia. exact Hn.
    + intros [Hle Hn].
      destruct (Nat.eq_dec i s) as [-> | Hne].
      * rewrite Nat.sub_diag in Hn. simpl in Hn. injection Hn as <-. now left.
      * right. split; [lia |].
        replace (i - s)%nat with (S (i - S s)) in Hn by lia. exact Hn.
Qed.

Lemma in_enumerate {A : Type} (l : list A) (i : nat) (c : A) :
  In (i, c) (enumerate l) <-> nth_error l i = Some c.
Proof.
  unfold enumerate. rewrite in_enumerate_from, Nat.sub_0_r.
  split; [intros [_ H]; exact H | intros H; split; [lia | exact H]].
Qed.

(** The double loop appends exactly the upper-triangle entries that hold a
    number. *)
Lemma in_upper_pairs (m : CorrMatrix) (p : Pair.t) :
  In p (upper_pairs m)
  <-> exists (i j : nat) (col1 col2 : string) (r : R),
        (i < j)%nat /\
        nth_error (cm_columns m) i = Some col1 /\
        nth_error (cm_columns m) j = Some col2 /\
        loc m col1 col2 = Some r /\
        p = {| Pair.pair := col1 ++ " vs " ++ col2; Pair.correlation := r |}.
Proof.
  unfold upper_pairs. rewrite in_flat_map. split.
  - intros ([i col1] & Hi & Hin). rewrite in_flat_map in Hin.
    destruct Hin as ([j col2] & Hj & Hin). simpl in Hin.
    destruct (i <? j)%nat eqn:Hlt; [| contradiction].
    destruct (loc m col1 col2) as [r |] eqn:Hloc; [| contradiction].
    destruct Hin as [<- | []].
    exists i, j, col1, col2, r.
    apply Nat.ltb_lt in Hlt. apply in_enumerate in Hi, Hj.
    repeat split; assumption.
  - intros (i & j & col1 & col2 & r & Hlt & Hi & Hj & Hloc & ->).
    exists (i, col1). split; [now apply in_enumerate |].
    rewrite in_flat_map. exists (j, col2).
    split; [now apply in_enumerate |]. simpl.
    apply Nat.ltb_lt in Hlt. rewrite Hlt, Hloc. now left.
Qed.

Lemma enumerate_nodup {A : Type} (l : list A) : NoDup (enumerate l).
Proof.
  apply (NoDup_map_inv fst). unfold enumerate.
  assert (H : forall s, map fst (combine (seq s (List.length l)) l)
                        = seq s (List.length l)).
  { induction l as [| x l IH]; intros s; simpl; [reflexivity |].
    now rewrite IH. }
  rewrite H. apply seq_NoDup.
Qed.

Lemma in_upper_cells (cols : list string) (i j : nat) (col1 col2 : string) :
  In ((i, col1), (j, col2)) (upper_cells cols)
  <-> (i < j)%nat /\ nth_error cols i = Some col1
      /\ nth_error cols j = Some col2.
Proof.
  unfold upper_cells. rewrite in_flat_map. split.
  - intros (ic1 & Hi & Hin). rewrite in_map_iff in Hin.
    destruct Hin as (jc2 & E & Hj). injection E as -> ->.
    rewrite filter_In in Hj. destruct Hj as [Hj Hlt]. simpl in Hlt.
    apply Nat.ltb_lt in Hlt. apply in_enumerate in Hi, Hj. auto.
  - intros (Hlt & Hi & Hj). exists (i, col1).
    split; [now apply in_enumerate |].
    apply in_map, filter_In. split; [now apply in_enumerate |].
    simpl. now apply Nat.ltb_lt.
Qed.

Lemma cells_nodup (E F : list (nat * string)) :
  NoDup E -> NoDup F ->
  NoDup (flat_map (fun ic1 =>
           map (pair ic1) (filter (fun jc2 => (fst ic1 <? fst jc2)%nat) F)) E).
Proof.
  intros HE HF.
  induction HE as [| ic1 l Hnotin HE IH]; simpl; [constructor |].
  apply NoDup_app; [| exact IH |].
  - apply (NoDup_map_inv snd). rewrite map_map. simpl.
    rewrite map_id. apply NoDup_filter, HF.
  - intros c Hc Hc'. rewrite in_map_iff in Hc. destruct Hc as (jc2 & <- & _).
    rewrite in_flat_map in Hc'. destruct Hc' as (ic1' & Hin & Hc').
    rewrite in_map_iff in Hc'. destruct Hc' as (jc2' & E' & _).
    injection E' as -> _. contradiction.
Qed.

(** No cell of the upper triangle is visited twice. *)
Lemma upper_cells_nodup (cols : list string) : NoDup (upper_cells cols).
Proof. apply cells_nodup; apply enumerate_nodup. Qed.

Lemma flat_map_guard {A B : Type} (p : A -> bool) (f : A -> list B)
  (l : list A) :
  flat_map (fun x => if p x then f x else []) l = flat_map f (filter p l).
Proof.
  induction l as [| x l IH]; simpl; [reflexivity |].
  destruct (p x); simpl; now rewrite IH.
Qed.

(** The double loop visits the cells of the upper triangle, each once and
    in row-major order. *)
Lemma upper_pairs_cells (m : CorrMatrix) :
  upper_pairs m = flat_map (cell_pair m) (upper_cells (cm_columns m)).
Proof.
  unfold upper_pairs, upper_cells.
  set (F := enumerate (cm_columns m)). generalize F at 2 4. intros E.
  induction E as [| ic1 l IH]; simpl; [reflexivity |].
  rewrite flat_map_app, <- IH. f_equal.
  rewrite (flat_map_guard (fun jc2 => (fst ic1 <? fst jc2)%nat)
             (fun jc2 => cell_pair m (ic1, jc2))).
  induction (filter _ F) as [| jc2 l' IH']; simpl; [reflexivity |].
  now rewrite IH'.
Qed.

(** C7.  For a count [n] that is not negative, the ranking collects exactly
    the upper-triangle entries (column position [i < j]) whose correlation
    is a number, each cell of the triangle being visited once, orders them
    by absolute correlation, largest first, and returns the first [n] of
    that order; an entry it leaves out is never stronger than one it
    returns.  The default count is 5. *)
Theorem top_correlations_ranking (corr_matrix : CorrMatrix) (n : Z) :
  (0 <= n)%Z ->
  let ranked :=
    sort_desc (fun p => Rabs (Pair.correlation p)) (upper_pairs corr_matrix) in
  let top := extract_top_correlations corr_matrix n in
  let cells := upper_cells (cm_columns corr_matrix) in
  NoDup cells /\
  (forall i j col1 col2,
     In ((i, col1), (j, col2)) cells
     <-> (i < j)%nat /\ nth_error (cm_columns corr_matrix) i = Some col1
         /\ nth_error (cm_columns corr_matrix) j = Some col2) /\
  upper_pairs corr_matrix = flat_map (cell_pair corr_matrix) cells /\
  (forall p,
     In p (upper_pairs corr_matrix)
     <-> exists (i j : nat) (col1 col2 : string) (r : R),
           (i < j)%nat /\
           nth_error (cm_columns corr_matrix) i = Some col1 /\
           nth_error (cm_columns corr_matrix) j = Some col2 /\
           loc corr_matrix col1 col2 = Some r /\
           p = {| Pair.pair := col1 ++ " vs " ++ col2;
                  Pair.correlation := r |}) /\
  Permutation ranked (upper_pairs corr_matrix) /\
  StronglySorted stronger ranked /\
  top = firstn (Z.to_nat n) ranked /\
  List.length top
  = Nat.min (Z.to_nat n) (List.length (upper_pairs corr_matrix)) /\
  (forall a b, In a top -> In b (skipn (Z.to_nat n) ranked) -> stronger a b) /\
  extract_top_correlations corr_matrix default_n = firstn 5 ranked.
Proof.
  intros Hn. cbv zeta.
  set (key := fun p => Rabs (Pair.correlation p)).
  assert (Htop : extract_top_correlations corr_matrix n
                 = firstn (Z.to_nat n) (sort_desc key (upper_pairs corr_matrix))).
  { unfold extract_top_correlations. now rewrite slice_to_nonneg. }
  pose proof (sort_desc_sorted key (upper_pairs corr_matrix)) as Hsorted.
  split; [apply upper_cells_nodup |].
  split; [intros i j col1 col2; apply in_upper_cells |].
  split; [apply upper_pairs_cells |].
  split; [apply in_upper_pairs |].
  split; [apply sort_desc_perm |].
  split; [exact Hsorted |].
  split; [exact Htop |].
  split.
  - rewrite Htop, length_firstn.
    now rewrite (Permutation_length (sort_desc_perm key _)).
  - split; [| reflexivity].
    rewrite Htop. intros a b. now apply sorted_firstn_skipn.
Qed.

Lemma top_correlations_ranking_witness :
  extract_top_correlations sample_matrix 2
  = firstn 2 (sort_desc (fun p => Rabs (Pair.correlation p))
                        (upper_pairs sample_matrix)).
Proof.
  apply (top_correlations_ranking sample_matrix 2). lia.
Defined.

(** The pairs of the sample matrix in the order of the double loop: the
    diagonal, the lower triangle and the undefined entry are left out. *)
Example upper_pairs_sample :
  upper_pairs sample_matrix
  = [ {| Pair.pair := "a vs b"; Pair.correlation := 0.2 |};
      {| Pair.pair := "a vs c"; Pair.correlation := -0.9 |} ].
Proof. reflexivity. Qed.

Example top_correlations_sample :
  extract_top_correlations sample_matrix default_n
  = [ {| Pair.pair := "a vs c"; Pair.correlation := -0.9 |};
      {| Pair.pair := "a vs b"; Pair.correlation := 0.2 |} ].
Proof.
  unfold extract_top_correlations. rewrite upper_pairs_sample.
  unfold default_n, slice_to, sort_desc. simpl.
  destruct (Rlt_dec (Rabs 0.2) (Rabs (-0.9))) as [_ | H]; [reflexivity |].
  exfalso. apply H.
  rewrite (Rabs_pos_eq 0.2) by lra. rewrite (Rabs_left (-0.9)) by lra. lra.
Qed.

(** ** A noiseless line *)

(** The series [y = 3 x + 5] over ten positions is fitted with slope 3 and
    intercept 5, and its trend is increasing. *)
Example forecast_linear_series :
  exists r,
    simple_linear_forecast [5; 8; 11; 14; 17; 20; 23; 26; 29; 32]
                           default_periods = Ok r /\
    Forecast.slope r = 3 /\
    Forecast.intercept r = 5 /\
    Forecast.trend r = "increasing".
Proof.
  destruct (forecast_fits [5; 8; 11; 14; 17; 20; 23; 26; 29; 32]
                          default_periods) as [r Hr]; [simpl; lia |].
  exists r. split; [exact Hr |].
  pose proof (forecast_ok_inv _ _ _ Hr) as (_ & Hs & Hi & _ & _ & Ht).
  assert (Hx : Num.mean (Num.arange 0 10) = 9 / 2).
  { unfold Num.mean, Num.len, Num.arange; simpl. lra. }
  assert (Hy : Num.mean [5; 8; 11; 14; 17; 20; 23; 26; 29; 32] = 37 / 2).
  { unfold Num.mean, Num.len; simpl. lra. }
  cbn [List.length] in Hs, Hi. rewrite Hx, Hy in Hs, Hi.
  assert (Hslope : Forecast.slope r = 3).
  { rewrite Hs. unfold Num.map2, Num.arange. simpl. lra. }
  split; [exact Hslope |].
  split; [rewrite Hi, Hslope; lra |].
  rewrite Ht, Hslope. destruct (Rlt_dec 0 3); [reflexivity | lra].
Qed.

(** ** Slices that count from the end *)

(** A negative count drops pairs from the end of the ranking instead of
    taking them from its start. *)
Example slice_to_negative : slice_to [1; 2; 3] (-1) = [1; 2].
Proof. reflexivity. Qed.

(** ** Two reversed columns *)

Lemma corr_reversed : Num.corr [1; 2; 3; 4; 5] [5; 4; 3; 2; 1] = Some (-1).
Proof.
  assert (Ha : Num.mean [1; 2; 3; 4; 5] = 3)
    by (unfold Num.mean, Num.len; simpl; lra).
  assert (Hb : Num.mean [5; 4; 3; 2; 1] = 3)
    by (unfold Num.mean, Num.len; simpl; lra).
  assert (Haa : Num.cov [1; 2; 3; 4; 5] [1; 2; 3; 4; 5] = 5 / 2).
  { unfold Num.cov. rewrite Ha. unfold Num.map2, Num.len; simpl. lra. }
  assert (Hbb : Num.cov [5; 4; 3; 2; 1] [5; 4; 3; 2; 1] = 5 / 2).
  { unfold Num.cov. rewrite Hb. unfold Num.map2, Num.len; simpl. lra. }
  assert (Hab : Num.cov [1; 2; 3; 4; 5] [5; 4; 3; 2; 1] = - (5 / 2)).
  { unfold Num.cov. rewrite Ha, Hb. unfold Num.map2, Num.len; simpl. lra. }
  unfold Num.corr. cbn [List.length Nat.leb]. rewrite Haa, Hbb, Hab.
  destruct (Req_dec_T (5 / 2) 0) as [E | _]; [lra |].
  f_equal.
  assert (Hpos : 0 < sqrt (5 / 2)) by (apply sqrt_lt_R0; lra).
  assert (Hsq : sqrt (5 / 2) * sqrt (5 / 2) = 5 / 2) by (apply sqrt_sqrt; lra).
  apply (Rmult_eq_reg_r (sqrt (5 / 2) * sqrt (5 / 2))); [| nra].
  replace (- (5 / 2) / sqrt (5 / 2) / sqrt (5 / 2)
           * (sqrt (5 / 2) * sqrt (5 / 2))) with (- (5 / 2))
    by (field; lra).
  lra.
Qed.

(** The columns [a = 1..5] and [b = 5..1] correlate at exactly -1. *)
Example bivariate_reversed_columns :
  exists r,
    bivariate_correlation (fun _ => None) table_ab "a" "b" = Ok r /\
    Bivariate.correlation r = -1 /\
    Bivariate.sample_size r = 5%Z /\
    Bivariate.interpretation r = "Very Strong negative correlation".
Proof.
  eexists. split; [reflexivity |].
  cbn [Bivariate.correlation Bivariate.sample_size Bivariate.interpretation].
  rewrite select_joint_fst, select_joint_snd.
  change (map fst (jointly_valid
                     (to_numeric (fun _ => None) (get_column table_ab "a"))
                     (to_numeric (fun _ => None) (get_column table_ab "b"))))
    with [1; 2; 3; 4; 5].
  change (map snd (jointly_valid
                     (to_numeric (fun _ => None) (get_column table_ab "a"))
                     (to_numeric (fun _ => None) (get_column table_ab "b"))))
    with [5; 4; 3; 2; 1].
  rewrite corr_reversed.
  split; [reflexivity |]. split; [reflexivity |].
  unfold interpret_correlation. rewrite (Rabs_left (-1)) by lra.
  destruct (Rlt_dec 0 (-1)); [lra |].
  destruct (Rlt_dec (- -1) 0.1); [lra |].
  destruct (Rlt_dec (- -1) 0.3); [lra |].
  destruct (Rlt_dec (- -1) 0.5); [lra |].
  destruct (Rlt_dec (- -1) 0.7); [lra | reflexivity].
Qed.

(** ** A constant series *)

Lemma map2_repeat_zero (f : R -> R) (c : R) (xs : list R) (n : nat) :
  Num.sum (Num.map2 (fun x y => f x * (y - c)) xs (repeat c n)) = 0.
Proof.
  unfold Num.map2. revert n.
  induction xs as [| x xs IH]; intros [| n]; simpl; try lra.
  rewrite IH. lra.
Qed.

Lemma sum_pow2_repeat (c : R) (n : nat) :
  Num.sum (map (fun y => (y - c) ^ 2) (repeat c n)) = 0.
Proof.
  induction n as [| n IH]; [simpl; lra |].
  cbn [repeat map Num.sum fold_right]. unfold Num.sum in IH. rewrite IH. lra.
Qed.

(** A constant series of ten observations is fitted with slope 0; its
    total sum of squares is 0, R-squared is reported as 0, and the trend is
    flat. *)
Example forecast_constant_series (c : R) :
  exists r,
    simple_linear_forecast (repeat c 10) default_periods = Ok r /\
    Forecast.slope r = 0 /\
    Forecast.intercept r = c /\
    Forecast.r_squared r = 0 /\
    Forecast.trend r = "flat".
Proof.
  destruct (forecast_fits (repeat c 10) default_periods) as [r Hr];
    [simpl; lia |].
  exists r. split; [exact Hr |].
  pose proof (forecast_ok_inv _ _ _ Hr) as (_ & Hs & Hi & _ & Hr2 & Ht).
  assert (Hm : Num.mean (repeat c 10) = c) by (apply mean_repeat; lia).
  rewrite Hm in Hs, Hi, Hr2.
  assert (Hslope : Forecast.slope r = 0).
  { rewrite Hs.
    rewrite (map2_repeat_zero
               (fun x => x - Num.mean (Num.arange 0 (List.length (repeat c 10))))).
    unfold Rdiv. apply Rmult_0_l. }
  split; [exact Hslope |].
  split; [rewrite Hi, Hslope; lra |].
  split; [apply Hr2, sum_pow2_repeat |].
  rewrite Ht, Hslope.
  destruct (Rlt_dec 0 0); [lra | reflexivity].
Qed.

(** * Further properties of the indicators *)

(** ** Saturation: thresholds in persons, and the cap *)

(** The status in terms of the total itself: critical below 40% of the
    population, healthy from 60% of it, warning in between. *)
Theorem saturation_status_thresholds (t : Z) (s : string) :
  let persons := dict_get CONFIG.population s 50 * 1000000 in
  let r := calculate_saturation_index t s in
  (Saturation.status r = "critical" <-> IZR t < 0.4 * persons) /\
  (Saturation.status r = "warning"
   <-> 0.4 * persons <= IZR t < 0.6 * persons) /\
  (Saturation.status r = "healthy" <-> 0.6 * persons <= IZR t).
Proof.
  cbv zeta.
  pose proof (population_positive s) as Hp.
  pose proof (saturation_status_cases t s) as (Hc & Hw & Hh).
  cbv zeta in Hc, Hw, Hh.
  set (p := dict_get CONFIG.population s 50) in *.
  assert (Hratio : IZR t / (p * 1000000) * 100 * (p * 1000000) = IZR t * 100)
    by (field; lra).
  assert (Hraw : forall c, c < 120 ->
            (saturation_raw t s < c <-> IZR t * 100 < c * (p * 1000000))).
  { intros c Hc120. unfold saturation_raw. fold p.
    set (q := IZR t / (p * 1000000) * 100) in *.
    assert (Hpp : 0 < p * 1000000) by lra.
    split; intros H.
    - assert (q < c).
      { unfold Rmin in H. destruct (Rle_dec q 120); lra. }
      rewrite <- Hratio. apply Rmult_lt_compat_r; assumption.
    - assert (q < c).
      { apply (Rmult_lt_reg_r (p * 1000000)); [exact Hpp |]. lra. }
      unfold Rmin. destruct (Rle_dec q 120); lra. }
  pose proof (Hraw 40 ltac:(lra)) as H40.
  pose proof (Hraw 60 ltac:(lra)) as H60.
  destruct (Rlt_dec (saturation_raw t s) 40) as [L40 | G40].
  - rewrite (Hc L40).
    split; [split; [intros _; apply H40 in L40; lra | reflexivity] |].
    apply H40 in L40.
    split; (split; [discriminate | intros; lra]).
  - destruct (Rlt_dec (saturation_raw t s) 60) as [L60 | G60].
    + rewrite (Hw ltac:(lra)).
      assert (~ IZR t * 100 < 40 * (p * 1000000)) by (rewrite <- H40; exact G40).
      apply H60 in L60.
      split; [split; [discriminate | intros; lra] |].
      split; [split; [intros _; lra | reflexivity] |].
      split; [discriminate | intros; lra].
    + rewrite (Hh ltac:(lra)).
      assert (~ IZR t * 100 < 60 * (p * 1000000)) by (rewrite <- H60; exact G60).
      split; [split; [discriminate | intros; lra] |].
      split; [split; [discriminate | intros; lra] |].
      split; [intros _; lra | reflexivity].
Qed.

(** Once the total reaches 1.2 times the population, the value is the cap
    120 exactly and the status is healthy. *)
Theorem saturation_cap (t : Z) (s : string) :
  1.2 * (dict_get CONFIG.population s 50 * 1000000) <= IZR t ->
  Saturation.value (calculate_saturation_index t s) = 120 /\
  Saturation.status (calculate_saturation_index t s) = "healthy".
Proof.
  intros H.
  pose proof (population_positive s) as Hp.
  assert (E : saturation_raw t s = 120).
  { unfold saturation_raw. cbv zeta.
    set (p := dict_get CONFIG.population s 50) in *.
    apply Rmin_right.
    assert (Hratio : IZR t / (p * 1000000) * 100 * (p * 1000000) = IZR t * 100)
      by (field; lra).
    apply (Rmult_le_reg_r (p * 1000000)); [lra |]. lra. }
  split.
  - unfold calculate_saturation_index; simpl. rewrite E. apply round1_120.
  - apply (saturation_status_cases t s). rewrite E. lra.
Qed.

Lemma saturation_cap_witness :
  Saturation.value (calculate_saturation_index 50000000 "Kerala") = 120 /\
  Saturation.status (calculate_saturation_index 50000000 "Kerala") = "healthy".
Proof.
  apply (saturation_cap 50000000 "Kerala"). simpl. lra.
Defined.

(** ** Volatility: what the index does not depend on *)












(** ** Volatility: how high it can get on few days *)

Lemma sum_sq_dev (c : R) (l : list R) :
  Num.sum (map (fun x => (x - c) * (x - c)) l)
  = Num.sum (map (fun x => x * x) l) - 2 * c * Num.sum l + Num.len l * c * c.
Proof.
  unfold Num.len. induction l as [| x l IH]; [simpl; ring |].
  cbn [map Num.sum fold_right List.length]. unfold Num.sum in IH.
  rewrite IH, S_INR. ring.
Qed.

Lemma sum_sq_le_sq_sum (l : list R) :
  Forall (fun x => 0 <= x) l ->
  Num.sum (map (fun x => x * x) l) <= Num.sum l * Num.sum l.
Proof.
  induction 1 as [| x l Hx Hl IH]; simpl; [lra |].
  pose proof (sum_nonneg l Hl) as Hs. unfold Num.sum in *. nra.
Qed.

(** On non-negative totals the variance is at most [n - 1] times the
    squared mean. *)
Lemma ssd_bound (l : list R) :
  l <> [] -> Forall (fun x => 0 <= x) l ->
  Num.ssd l / Num.len l <= (Num.len l - 1) * (Num.mean l * Num.mean l).
Proof.
  intros Hne Hpos. pose proof (len_pos l Hne) as Hn.
  unfold Num.ssd. cbv zeta. rewrite sum_sq_dev.
  pose proof (sum_sq_le_sq_sum l Hpos) as Hsq.
  assert (Hsum : Num.sum l = Num.len l * Num.mean l)
    by (unfold Num.mean; field; lra).
  rewrite Hsum in Hsq |- *.
  set (n := Num.len l) in *. set (m := Num.mean l) in *.
  set (q := Num.sum (map (fun x => x * x) l)) in *.
  apply (Rmult_le_reg_r n); [exact Hn |].
  replace ((q - 2 * m * (n * m) + n * m * m) / n * n)
    with (q - 2 * m * (n * m) + n * m * m) by (field; lra).
  nra.
Qed.

(** With no negative daily total, the status critical needs at least four
    days of data: on two or three days the coefficient of variation stays
    below 150. *)
Theorem volatility_critical_needs_four_days (daily_values : list R) :
  Forall (fun x => 0 <= x) daily_values ->
  Volatility.status (calculate_volatility_index daily_values) = "critical" ->
  (4 <= List.length daily_values)%nat.
Proof.
  intros Hpos Hcrit.
  destruct (Nat.lt_ge_cases (List.length daily_values) 2) as [Hs | Hl].
  { rewrite volatility_short in Hcrit by exact Hs. discriminate Hcrit. }
  destruct (Req_dec_T (Num.mean daily_values) 0) as [E | Hne].
  { rewrite volatility_no_activity in Hcrit by assumption. discriminate Hcrit. }
  destruct (Nat.lt_ge_cases (List.length daily_values) 4) as [H4 | H4];
    [exfalso | exact H4].
  pose proof (volatility_general daily_values Hl Hne) as (_ & Hst & Hmo & Hhi & _).
  cbv zeta in Hst, Hmo, Hhi.
  assert (Hlt : volatility_raw daily_values < 150).
  { assert (Hnil : daily_values <> []) by (intros ->; simpl in Hl; lia).
    pose proof (ssd_bound daily_values Hnil Hpos) as Hb.
    pose proof (mean_nonneg daily_values Hpos) as Hm.
    assert (Hlen : Num.len daily_values <= 3).
    { unfold Num.len. replace 3 with (INR 3) by (simpl; lra).
      apply le_INR. lia. }
    assert (Hvar : Num.ssd daily_values / Num.len daily_values
                   <= 2 * (Num.mean daily_values * Num.mean daily_values)).
    { eapply Rle_trans; [exact Hb |].
      apply Rmult_le_compat_r; [nra | lra]. }
    assert (Hstd : Num.pstd daily_values
                   < 3 / 2 * Num.mean daily_values).
    { unfold Num.pstd.
      rewrite <- (sqrt_square (3 / 2 * Num.mean daily_values)) by lra.
      apply sqrt_lt_1.
      - apply Rmult_le_pos; [apply ssd_nonneg |].
        apply Rlt_le, Rinv_0_lt_compat, len_pos, Hnil.
      - nra.
      - nra. }
    unfold volatility_raw. cbv zeta.
    assert (Hmpos : 0 < Num.mean daily_values) by lra.
    assert (Hq : Num.pstd daily_values / Num.mean daily_values < 3 / 2).
    { apply (Rmult_lt_reg_r (Num.mean daily_values)); [exact Hmpos |].
      replace (Num.pstd daily_values / Num.mean daily_values
               * Num.mean daily_values)
        with (Num.pstd daily_values) by (field; lra).
      exact Hstd. }
    lra. }
  destruct (Rlt_dec (volatility_raw daily_values) 50) as [A | A];
    [rewrite (Hst A) in Hcrit; discriminate Hcrit |].
  destruct (Rlt_dec (volatility_raw daily_values) 100) as [B | B];
    [rewrite (Hmo ltac:(lra)) in Hcrit; discriminate Hcrit |].
  rewrite (Hhi ltac:(lra)) in Hcrit. discriminate Hcrit.
Qed.

(** Four idle days and one day of 5: mean 1, standard deviation 2. *)
Lemma volatility_spike_critical :
  Volatility.status (calculate_volatility_index [0; 0; 0; 0; 5]) = "critical".
Proof.
  assert (Hm : Num.mean [0; 0; 0; 0; 5] = 1)
    by (unfold Num.mean, Num.len; simpl; lra).
  assert (Hp : Num.pstd [0; 0; 0; 0; 5] = 2).
  { unfold Num.pstd, Num.ssd. rewrite Hm. unfold Num.len; simpl.
    replace ((0 - 1) * (0 - 1) + ((0 - 1) * (0 - 1) + ((0 - 1) * (0 - 1)
             + ((0 - 1) * (0 - 1) + ((5 - 1) * (5 - 1) + 0))))) with 20 by lra.
    replace (20 / (1 + 1 + 1 + 1 + 1)) with (2 * 2) by lra.
    apply sqrt_square. lra. }
  pose proof (volatility_general [0; 0; 0; 0; 5]) as H. cbv zeta in H.
  destruct H as (_ & _ & _ & _ & Hc); [simpl; lia | rewrite Hm; lra |].
  apply Hc. unfold volatility_raw. rewrite Hm, Hp. lra.
Qed.

Lemma volatility_critical_needs_four_days_witness :
  (4 <= List.length [0; 0; 0; 0; 5])%nat.
Proof.
  apply (volatility_critical_needs_four_days [0; 0; 0; 0; 5]).
  - repeat constructor; lra.
  - exact volatility_spike_critical.
Defined.

(** * Further properties of the trend forecast *)

Lemma sum_cons (x : R) (l : list R) : Num.sum (x :: l) = x + Num.sum l.
Proof. reflexivity. Qed.

Section SumsOfProducts.

Context {A : Type} (u v : A -> R).

Lemma sum_sq_nonneg (l : list A) : 0 <= Num.sum (map (fun p => u p ^ 2) l).
Proof.
  induction l as [| p l IH]; [simpl; lra |].
  cbn [map Num.sum fold_right]. unfold Num.sum in IH.
  pose proof (pow2_ge_0 (u p)). lra.
Qed.

(** The Cauchy-Schwarz inequality on finite sums. *)
Lemma cauchy_schwarz (l : list A) :
  Num.sum (map (fun p => u p * v p) l) * Num.sum (map (fun p => u p * v p) l)
  <= Num.sum (map (fun p => u p ^ 2) l) * Num.sum (map (fun p => v p ^ 2) l).
Proof.
  induction l as [| p l IH]; [simpl; lra |].
  cbn [map]. rewrite !sum_cons.
  pose proof (sum_sq_nonneg l) as HA.
  set (S := Num.sum (map (fun p => u p * v p) l)) in *.
  set (SA := Num.sum (map (fun p => u p ^ 2) l)) in *.
  assert (HB : 0 <= Num.sum (map (fun p => v p ^ 2) l)).
  { clear. induction l as [| q l IH]; [simpl; lra |].
    cbn [map Num.sum fold_right]. unfold Num.sum in IH.
    pose proof (pow2_ge_0 (v q)). lra. }
  set (SB := Num.sum (map (fun p => v p ^ 2) l)) in *.
  set (x := u p). set (y := v p).
  assert (Hcross : 2 * S * x * y <= SA * y ^ 2 + SB * x ^ 2).
  { destruct (Req_dec_T SA 0) as [E0 | Hne].
    - assert (S = 0) by nra. subst S. rewrite H, E0.
      pose proof (pow2_ge_0 x). nra.
    - assert (Hpos : 0 < SA) by lra.
      apply (Rmult_le_reg_l SA); [exact Hpos |].
      pose proof (Rle_0_sqr (SA * y - S * x)) as Hsq. unfold Rsqr in Hsq.
      pose proof (pow2_ge_0 x) as Hx2.
      assert (S * S * x ^ 2 <= SA * SB * x ^ 2)
        by (apply Rmult_le_compat_r; assumption).
      nra. }
  replace ((x * y + S) * (x * y + S))
    with (x ^ 2 * y ^ 2 + 2 * S * x * y + S * S) by ring.
  replace ((x ^ 2 + SA) * (y ^ 2 + SB))
    with (x ^ 2 * y ^ 2 + (SA * y ^ 2 + SB * x ^ 2) + SA * SB) by ring.
  lra.
Qed.


End SumsOfProducts.

Lemma map_fst_combine {A B : Type} (a : list A) (b : list B) :
  List.length a = List.length b -> map fst (combine a b) = a.
Proof.
  revert b. induction a as [| x a IH]; intros [| y b] H; simpl in *;
    try reflexivity; try discriminate.
  f_equal. apply IH. lia.
Qed.

Lemma map_snd_combine {A B : Type} (a : list A) (b : list B) :
  List.length a = List.length b -> map snd (combine a b) = b.
Proof.
  revert b. induction a as [| x a IH]; intros [| y b] H; simpl in *;
    try reflexivity; try discriminate.
  f_equal. apply IH. lia.
Qed.

Lemma fit_X_length (time_series : list R) :
  List.length (fit_X time_series) = List.length time_series.
Proof. unfold fit_X, Num.arange. now rewrite length_map, length_seq. Qed.

(** The three regression sums, over the observations paired with their
    positions. *)
Lemma fit_sums_paired (time_series : list R) :
  let P := combine (fit_X time_series) time_series in
  let xm := Num.mean (fit_X time_series) in
  let ym := Num.mean time_series in
  fit_numerator time_series
  = Num.sum (map (fun p => (fst p - xm) * (snd p - ym)) P) /\
  fit_denominator time_series = Num.sum (map (fun p => (fst p - xm) ^ 2) P) /\
  fit_ss_tot time_series = Num.sum (map (fun p => (snd p - ym) ^ 2) P).
Proof.
  cbv zeta. pose proof (fit_X_length time_series) as Hlen.
  split; [reflexivity |]. split.
  - rewrite <- (map_map fst (fun x => (x - Num.mean (fit_X time_series)) ^ 2)).
    now rewrite (map_fst_combine _ _ Hlen).
  - rewrite <- (map_map snd (fun y => (y - Num.mean time_series) ^ 2)).
    now rewrite (map_snd_combine _ _ Hlen).
Qed.

Lemma map2_map_r {A B C D : Type} (g : A -> C -> D) (f : B -> C)
  (a : list A) (b : list B) :
  Num.map2 g a (map f b)
  = map (fun p => g (snd p) (f (fst p))) (combine b a).
Proof.
  unfold Num.map2. revert b.
  induction a as [| x a IH]; intros [| y b]; simpl; try reflexivity.
  now rewrite IH.
Qed.

(** The whole of a fitted result. *)
Lemma forecast_ok_r_squared (time_series : list R) (periods : Z)
  (r : Forecast.t) :
  simple_linear_forecast time_series periods = Ok r ->
  let y_pred :=
    map (fun x => Forecast.slope r * x + Forecast.intercept r)
        (fit_X time_series) in
  let ss_res :=
    Num.sum (Num.map2 (fun a b => (a - b) ^ 2) time_series y_pred) in
  Forecast.slope r = fit_numerator time_series / fit_denominator time_series /\
  Forecast.r_squared r
  = (if Rlt_dec 0 (fit_ss_tot time_series)
     then 1 - ss_res / fit_ss_tot time_series else 0).
Proof.
  cbv zeta. unfold simple_linear_forecast.
  destruct (List.length time_series <? 10)%nat; [discriminate |].
  destruct (Req_dec_T (fit_denominator time_series) 0); [discriminate |].
  intros H. injection H as <-. split; reflexivity.
Qed.




(** The only error of the forecaster is the one for a short series: the
    guard on a zero denominator can never fire. *)
Theorem forecast_error_only_when_short (time_series : list R) (periods : Z) :
  simple_linear_forecast time_series periods <> Error "Cannot calculate slope"
  /\ (forall msg, simple_linear_forecast time_series periods = Error msg ->
        msg = "Insufficient data for forecasting"
        /\ (List.length time_series < 10)%nat)
  /\ ((periods <= 0)%Z ->
      forall r, simple_linear_forecast time_series periods = Ok r ->
                Forecast.forecast r = []).
Proof.
  assert (Herr : forall msg,
            simple_linear_forecast time_series periods = Error msg ->
            msg = "Insufficient data for forecasting"
            /\ (List.length time_series < 10)%nat).
  { intros msg H.
    destruct (Nat.lt_ge_cases (List.length time_series) 10) as [Hs | Hl].
    - rewrite forecast_short in H by exact Hs. injection H as <-. now split.
    - destruct (forecast_fits time_series periods Hl) as [r Hr].
      rewrite Hr in H. discriminate H. }
  split; [| split; [exact Herr |]].
  - intros H. apply Herr in H. destruct H as [H _]. discriminate H.
  - intros Hp r Hr.
    pose proof (forecast_length _ _ _ Hr) as Hlen.
    replace (Z.to_nat periods) with 0%nat in Hlen by lia.
    now destruct (Forecast.forecast r).
Qed.

(** ** Observations that lie on a line *)

Lemma sum_map_scale {A : Type} (c : R) (g : A -> R) (l : list A) :
  Num.sum (map (fun x => c * g x) l) = c * Num.sum (map g l).
Proof.
  induction l as [| x l IH]; [simpl; ring |].
  cbn [map]. rewrite !sum_cons, IH. ring.
Qed.

Lemma sum_affine (a b : R) (l : list R) :
  Num.sum (map (fun x => a * x + b) l) = a * Num.sum l + b * Num.len l.
Proof.
  unfold Num.len. induction l as [| x l IH]; [simpl; ring |].
  cbn [map List.length]. rewrite !sum_cons, IH, S_INR. ring.
Qed.

Lemma mean_affine (a b : R) (l : list R) :
  l <> [] -> Num.mean (map (fun x => a * x + b) l) = a * Num.mean l + b.
Proof.
  intros Hne. pose proof (len_pos l Hne) as Hn.
  unfold Num.mean. rewrite sum_affine.
  unfold Num.len in *. rewrite length_map. field. lra.
Qed.

Lemma combine_map_self {A B : Type} (f : A -> B) (l : list A) :
  combine l (map f l) = map (fun x => (x, f x)) l.
Proof. induction l as [| x l IH]; simpl; [| rewrite IH]; reflexivity. Qed.

(** Observations [a * x + b] at the positions [x = 0 .. n-1], ten or more
    of them, are fitted with slope [a] and intercept [b]; every projected
    value lies on the same line, and unless [a] is 0 the coefficient of
    determination is 1. *)
Theorem forecast_recovers_line (a b : R) (n : nat) (periods : Z) :
  (10 <= n)%nat ->
  exists r,
    simple_linear_forecast (map (fun x => a * x + b) (Num.arange 0 n)) periods
    = Ok r /\
    Forecast.slope r = a /\
    Forecast.intercept r = b /\
    (a <> 0 -> Forecast.r_squared r = 1) /\
    (forall k, (k < Z.to_nat periods)%nat ->
       nth k (Forecast.forecast r) 0 = a * INR (n + k) + b).
Proof.
  intros Hn.
  set (X := Num.arange 0 n). set (ts := map (fun x => a * x + b) X).
  assert (HlenX : List.length X = n)
    by (unfold X, Num.arange; now rewrite length_map, length_seq).
  assert (Hlen : List.length ts = n) by (unfold ts; now rewrite length_map).
  assert (HX : fit_X ts = X) by (unfold fit_X; now rewrite Hlen).
  assert (HXne : X <> []) by (intros E; rewrite E in HlenX; simpl in HlenX; lia).
  destruct (forecast_fits ts periods ltac:(lia)) as [r Hr].
  exists r. split; [exact Hr |].
  pose proof (forecast_ok_r_squared _ _ _ Hr) as [Hs Hr2]. cbv zeta in Hr2.
  pose proof (forecast_ok_inv _ _ _ Hr) as (_ & _ & Hi & _). cbv zeta in Hi.
  fold (fit_X ts) in Hi. rewrite HX in Hi, Hr2.
  pose proof (fit_denominator_pos ts ltac:(lia)) as Hden.
  pose proof (fit_sums_paired ts) as (HN & HD & HT). cbv zeta in HN, HD, HT.
  rewrite HX in HN, HD, HT.
  assert (Hym : Num.mean ts = a * Num.mean X + b) by (apply mean_affine, HXne).
  assert (HP : combine X ts = map (fun x => (x, a * x + b)) X)
    by apply combine_map_self.
  rewrite HP, map_map in HN, HD, HT.
  cbn [fst snd] in HN, HD, HT. rewrite Hym in HN, HT.
  set (xm := Num.mean X) in *.
  assert (HN' : fit_numerator ts = a * fit_denominator ts).
  { rewrite HN, HD, <- sum_map_scale. f_equal. apply map_ext. intros x. ring. }
  assert (HT' : fit_ss_tot ts = a * a * fit_denominator ts).
  { rewrite HT, HD, <- sum_map_scale. f_equal. apply map_ext. intros x. ring. }
  assert (Hslope : Forecast.slope r = a) by (rewrite Hs, HN'; field; lra).
  assert (Hint : Forecast.intercept r = b) by (rewrite Hi, Hslope, Hym; ring).
  split; [exact Hslope |]. split; [exact Hint |]. split.
  - intros Ha. rewrite Hr2.
    destruct (Rlt_dec 0 (fit_ss_tot ts)) as [_ | Hbad];
      [| exfalso; apply Hbad; rewrite HT';
         apply Rmult_lt_0_compat; [| exact Hden];
         destruct (Rtotal_order a 0) as [? | [? | ?]]; nra].
    rewrite Hslope, Hint. unfold ts at 1.
    rewrite map2_map_r, combine_map_self, map_map. cbn [fst snd].
    rewrite (map_ext _ (fun _ => 0 * 0))
      by (intros x; ring).
    rewrite sum_map_scale. unfold Rdiv. ring.
  - intros k Hk. rewrite (forecast_nth _ _ _ _ Hr Hk), Hslope, Hint, Hlen.
    reflexivity.
Qed.

Lemma forecast_recovers_line_witness :
  exists r,
    simple_linear_forecast (map (fun x => 3 * x + 5) (Num.arange 0 10)) 30
    = Ok r /\
    Forecast.slope r = 3 /\ Forecast.intercept r = 5 /\
    Forecast.r_squared r = 1.
Proof.
  destruct (forecast_recovers_line 3 5 10 30) as (r & Hr & Hs & Hi & Hr2 & _);
    [lia |].
  exists r. split; [exact Hr |]. split; [exact Hs |]. split; [exact Hi |].
  apply Hr2. lra.
Defined.

(** * Further properties of the summaries and correlations *)

(** ** Univariate summary: errors, count and extremes *)

Lemma dropna_length (s : list (option R)) :
  (List.length (dropna s) <= List.length s)%nat.
Proof.
  induction s as [| [x |] s IH]; simpl; lia.
Qed.

Lemma dropna_count (s : list (option R)) :
  List.length (dropna s)
  = List.length (filter (fun v => match v with Some _ => true | None => false end) s).
Proof.
  induction s as [| [x |] s IH]; simpl; [reflexivity | now rewrite IH | exact IH].
Qed.

Lemma univariate_ok_inv (parse_number : string -> option R)
  (median : list R -> option R) (quantile : list R -> R -> option R)
  (skew kurtosis : list R -> option R) (df : DataFrame) (column : string)
  (r : Univariate.t) :
  univariate_analysis parse_number median quantile skew kurtosis df column
  = Ok r ->
  let series := dropna (to_numeric parse_number (get_column df column)) in
  has_column df column = true /\ series <> [] /\
  Univariate.count r = Z.of_nat (List.length series) /\
  Univariate.mean r = Num.mean series /\
  Univariate.min r = Num.minimum series /\
  Univariate.max r = Num.maximum series.
Proof.
  unfold univariate_analysis.
  destruct (has_column df column); cbn [negb]; [| discriminate].
  set (series := dropna _).
  destruct (List.length series =? 0)%nat eqn:Hlen; [discriminate |].
  intros H. injection H as <-. cbn.
  repeat split; try reflexivity.
  intros E. rewrite E in Hlen. discriminate Hlen.
Qed.

(** The summary fails exactly when the column is missing or holds no
    number, each with its own message; text and missing cells are never
    counted, so the count is the number of cells that hold a number and
    lies between 1 and the number of rows. *)
Theorem univariate_errors_and_count (parse_number : string -> option R)
  (median : list R -> option R) (quantile : list R -> R -> option R)
  (skew kurtosis : list R -> option R) (df : DataFrame) (column : string) :
  let analysis :=
    univariate_analysis parse_number median quantile skew kurtosis df column in
  let coerced := to_numeric parse_number (get_column df column) in
  (has_column df column = false ->
     analysis = Error ("Column " ++ column ++ " not found")) /\
  (has_column df column = true -> dropna coerced = [] ->
     analysis = Error ("No valid numeric data in " ++ column)) /\
  ((exists r, analysis = Ok r)
   <-> has_column df column = true /\ dropna coerced <> []) /\
  (forall r, analysis = Ok r ->
     Univariate.count r
     = Z.of_nat (List.length
         (filter (fun v => match v with Some _ => true | None => false end)
                 coerced)) /\
     (1 <= Univariate.count r <= Z.of_nat (List.length (rows df)))%Z).
Proof.
  cbv zeta. split; [| split; [| split]].
  - intros H. unfold univariate_analysis. now rewrite H.
  - intros H E. unfold univariate_analysis. rewrite H. cbn [negb].
    now rewrite E.
  - split.
    + intros [r Hr]. apply univariate_ok_inv in Hr. cbv zeta in Hr. tauto.
    + intros [H Hne]. unfold univariate_analysis. rewrite H. cbn [negb].
      destruct (List.length _ =? 0)%nat eqn:Hlen.
      * apply Nat.eqb_eq in Hlen.
        destruct (dropna _); [congruence | discriminate].
      * eexists. reflexivity.
  - intros r Hr. apply univariate_ok_inv in Hr. cbv zeta in Hr.
    destruct Hr as (_ & Hne & Hc & _). rewrite Hc.
    split; [now rewrite dropna_count |].
    pose proof (dropna_length (to_numeric parse_number (get_column df column)))
      as Hle.
    assert (Hrows : List.length (to_numeric parse_number (get_column df column))
                    = List.length (rows df))
      by (unfold to_numeric, get_column; now rewrite !length_map).
    rewrite Hrows in Hle.
    destruct (dropna _) as [| x l]; [congruence |]. simpl List.length in *. lia.
Qed.






(** ** Pairwise correlation: symmetry, range and self-correlation *)

(** The correlator in terms of the jointly valid rows. *)
Lemma bivariate_cases (parse_number : string -> option R) (df : DataFrame)
  (col1 col2 : string) :
  has_column df col1 = true -> has_column df col2 = true ->
  let joint := jointly_valid (to_numeric parse_number (get_column df col1))
                             (to_numeric parse_number (get_column df col2)) in
  let c := Num.corr (map fst joint) (map snd joint) in
  bivariate_correlation parse_number df col1 col2
  = if (List.length joint <? 2)%nat then Error "Insufficient data"
    else Ok {| Bivariate.column1 := col1;
               Bivariate.column2 := col2;
               Bivariate.correlation :=
                 match c with Some r => r | None => 0 end;
               Bivariate.sample_size := Z.of_nat (List.length joint);
               Bivariate.interpretation := interpret_correlation c |}.
Proof.
  intros H1 H2. cbv zeta. unfold bivariate_correlation.
  rewrite H1, H2. cbn [negb orb].
  rewrite select_joint_fst, select_joint_snd. now rewrite !length_map.
Qed.


Lemma jointly_valid_length (s1 s2 : list (option R)) :
  (List.length (jointly_valid s1 s2) <= List.length s1)%nat.
Proof.
  revert s2. induction s1 as [| a s1 IH]; intros [| b s2]; simpl; try lia.
  specialize (IH s2). unfold jointly_valid in *. simpl.
  rewrite length_app. destruct a as [x |], b as [y |]; simpl; lia.
Qed.




Lemma combine_self {A : Type} (l : list A) :
  combine l l = map (fun x => (x, x)) l.
Proof. induction l as [| x l IH]; simpl; [| rewrite IH]; reflexivity. Qed.

(** The sums behind the covariances of two series of one length. *)
Lemma cov_sums (a b : list R) :
  List.length a = List.length b ->
  let P := combine a b in
  let ma := Num.mean a in
  let mb := Num.mean b in
  Num.cov a b
  = Num.sum (map (fun p => (fst p - ma) * (snd p - mb)) P) / (Num.len a - 1) /\
  Num.cov a a = Num.sum (map (fun p => (fst p - ma) ^ 2) P) / (Num.len a - 1) /\
  Num.cov b b = Num.sum (map (fun p => (snd p - mb) ^ 2) P) / (Num.len a - 1).
Proof.
  intros Hlen. cbv zeta. split; [reflexivity |]. split.
  - unfold Num.cov, Num.map2. rewrite combine_self, map_map. cbn [fst snd].
    rewrite <- (map_map fst (fun x => (x - Num.mean a) ^ 2)).
    rewrite (map_fst_combine _ _ Hlen). f_equal. f_equal.
    apply map_ext. intros x. ring.
  - unfold Num.cov, Num.map2, Num.len. rewrite combine_self, map_map.
    cbn [fst snd]. rewrite <- Hlen.
    rewrite <- (map_map snd (fun x => (x - Num.mean b) ^ 2)).
    rewrite (map_snd_combine _ _ Hlen). f_equal. f_equal.
    apply map_ext. intros x. ring.
Qed.

(** A defined Pearson coefficient lies between -1 and 1. *)
Lemma corr_range (a b : list R) (c : R) :
  List.length a = List.length b -> Num.corr a b = Some c -> -1 <= c <= 1.
Proof.
  intros Hlen. unfold Num.corr.
  destruct (List.length a <=? 1)%nat eqn:Hn; [discriminate |].
  apply Nat.leb_gt in Hn.
  destruct (Req_dec_T (Num.cov a a) 0) as [| Hva]; [discriminate |].
  destruct (Req_dec_T (Num.cov b b) 0) as [| Hvb]; [discriminate |].
  intros H. injection H as <-.
  pose proof (cov_sums a b Hlen) as (Hab & Haa & Hbb). cbv zeta in Hab, Haa, Hbb.
  set (u := fun p : R * R => fst p - Num.mean a).
  set (v := fun p : R * R => snd p - Num.mean b).
  change (Num.cov a b = Num.sum (map (fun p => u p * v p) (combine a b))
                        / (Num.len a - 1)) in Hab.
  change (Num.cov a a = Num.sum (map (fun p => u p ^ 2) (combine a b))
                        / (Num.len a - 1)) in Haa.
  change (Num.cov b b = Num.sum (map (fun p => v p ^ 2) (combine a b))
                        / (Num.len a - 1)) in Hbb.
  pose proof (cauchy_schwarz u v (combine a b)) as Hcs.
  pose proof (sum_sq_nonneg u (combine a b)) as Hu.
  pose proof (sum_sq_nonneg v (combine a b)) as Hv.
  assert (Hd : 0 < Num.len a - 1).
  { unfold Num.len. apply lt_INR in Hn. simpl in Hn. lra. }
  set (Suv := Num.sum (map (fun p => u p * v p) (combine a b))) in *.
  set (Suu := Num.sum (map (fun p => u p ^ 2) (combine a b))) in *.
  set (Svv := Num.sum (map (fun p => v p ^ 2) (combine a b))) in *.
  set (d := Num.len a - 1) in *.
  assert (Hinv : 0 < / d) by (apply Rinv_0_lt_compat, Hd).
  assert (Hva0 : 0 < Num.cov a a).
  { assert (0 <= Num.cov a a)
      by (rewrite Haa; apply Rmult_le_pos; lra). lra. }
  assert (Hvb0 : 0 < Num.cov b b).
  { assert (0 <= Num.cov b b)
      by (rewrite Hbb; apply Rmult_le_pos; lra). lra. }
  assert (Hsq : Num.cov a b * Num.cov a b <= Num.cov a a * Num.cov b b).
  { rewrite Hab, Haa, Hbb. unfold Rdiv.
    replace (Suv * / d * (Suv * / d)) with (Suv * Suv * (/ d * / d)) by ring.
    replace (Suu * / d * (Svv * / d)) with (Suu * Svv * (/ d * / d)) by ring.
    apply Rmult_le_compat_r; [nra | exact Hcs]. }
  set (sa := sqrt (Num.cov a a)). set (sb := sqrt (Num.cov b b)).
  assert (Hsa : 0 < sa) by (apply sqrt_lt_R0, Hva0).
  assert (Hsb : 0 < sb) by (apply sqrt_lt_R0, Hvb0).
  assert (Hsa2 : sa * sa = Num.cov a a) by (apply sqrt_sqrt; lra).
  assert (Hsb2 : sb * sb = Num.cov b b) by (apply sqrt_sqrt; lra).
  assert (Hprod : 0 < sa * sb) by nra.
  assert (Hbound : - (sa * sb) <= Num.cov a b <= sa * sb).
  { assert (Num.cov a b * Num.cov a b <= (sa * sb) * (sa * sb))
      by (replace (sa * sb * (sa * sb)) with (sa * sa * (sb * sb)) by ring;
          rewrite Hsa2, Hsb2; exact Hsq).
    split; nra. }
  replace (Num.cov a b / sa / sb) with (Num.cov a b / (sa * sb))
    by (field; split; lra).
  split.
  - apply (Rmult_le_reg_r (sa * sb)); [exact Hprod |].
    replace (Num.cov a b / (sa * sb) * (sa * sb)) with (Num.cov a b)
      by (field; split; lra).
    lra.
  - apply (Rmult_le_reg_r (sa * sb)); [exact Hprod |].
    replace (Num.cov a b / (sa * sb) * (sa * sb)) with (Num.cov a b)
      by (field; split; lra).
    lra.
Qed.

(** A returned correlation lies between -1 and 1, and its sample size
    between 2 and the number of rows. *)
Theorem bivariate_correlation_range (parse_number : string -> option R)
  (df : DataFrame) (col1 col2 : string) (r : Bivariate.t) :
  bivariate_correlation parse_number df col1 col2 = Ok r ->
  -1 <= Bivariate.correlation r <= 1 /\
  (2 <= Bivariate.sample_size r <= Z.of_nat (List.length (rows df)))%Z.
Proof.
  intros Hr.
  destruct (has_column df col1) eqn:H1;
    [| unfold bivariate_correlation in Hr; rewrite H1 in Hr; discriminate Hr].
  destruct (has_column df col2) eqn:H2;
    [| unfold bivariate_correlation in Hr; rewrite H1, H2 in Hr;
       discriminate Hr].
  rewrite (bivariate_cases parse_number df col1 col2 H1 H2) in Hr.
  cbv zeta in Hr.
  set (joint := jointly_valid _ _) in Hr.
  destruct (List.length joint <? 2)%nat eqn:Hlen; [discriminate |].
  apply Nat.ltb_ge in Hlen. injection Hr as <-.
  cbn [Bivariate.correlation Bivariate.sample_size]. split.
  - destruct (Num.corr (map fst joint) (map snd joint)) as [c |] eqn:Hc;
      [| lra].
    apply (corr_range (map fst joint) (map snd joint) c); [| exact Hc].
    now rewrite !length_map.
  - pose proof (jointly_valid_length
                  (to_numeric parse_number (get_column df col1))
                  (to_numeric parse_number (get_column df col2))) as Hle.
    fold joint in Hle. unfold to_numeric, get_column in Hle.
    rewrite !length_map in Hle. clearbody joint. unfold row in *. lia.
Qed.

Lemma bivariate_correlation_range_witness :
  exists r,
    bivariate_correlation (fun _ => None) table_ab "a" "b" = Ok r /\
    -1 <= Bivariate.correlation r <= 1.
Proof.
  eexists. split; [reflexivity |].
  apply (bivariate_correlation_range (fun _ => None) table_ab "a" "b" _ eq_refl).
Defined.







(** ** Ranking: ties, and counts of any sign *)

Section Stability.

Context {A : Type} (key : A -> R) (k : R).

Lemma insert_desc_stable (x : A) (l : list A) :
  filter (fun a => if Req_dec_T (key a) k then true else false)
         (insert_desc key x l)
  = filter (fun a => if Req_dec_T (key a) k then true else false) (x :: l).
Proof.
  induction l as [| y l IH]; [reflexivity |].
  cbn [insert_desc].
  destruct (Rlt_dec (key x) (key y)) as [Hlt | Hge]; [| reflexivity].
  cbn [filter] in *. rewrite IH.
  destruct (Req_dec_T (key x) k) as [Ex | Nx];
    destruct (Req_dec_T (key y) k) as [Ey | Ny]; try reflexivity.
  exfalso. lra.
Qed.

(** Sorting keeps pairs of equal strength in the order they were found. *)
Lemma sort_desc_stable (l : list A) :
  filter (fun a => if Req_dec_T (key a) k then true else false)
         (sort_desc key l)
  = filter (fun a => if Req_dec_T (key a) k then true else false) l.
Proof.
  induction l as [| x l IH]; [reflexivity |].
  cbn [sort_desc fold_right]. fold (sort_desc key l).
  rewrite insert_desc_stable. cbn [filter]. now rewrite IH.
Qed.

End Stability.



(** Whatever the count, the ranking returns a prefix of the sorted pairs. *)
Lemma top_correlations_prefix (m : CorrMatrix) (n : Z) :
  let ranked := sort_desc (fun p => Rabs (Pair.correlation p)) (upper_pairs m) in
  extract_top_correlations m n
  = firstn (if (n <? 0)%Z then List.length ranked - Z.to_nat (- n)
            else Z.to_nat n) ranked.
Proof.
  cbv zeta. unfold extract_top_correlations, slice_to.
  destruct (n <? 0)%Z; reflexivity.
Qed.

(** Pairs of equal absolute correlation are returned in the order of the
    double loop: among the pairs of any one strength, the returned ones are
    the first ones found. *)
Theorem top_correlations_ties_keep_order (corr_matrix : CorrMatrix) (n : Z)
  (k : R) :
  let same := fun p : Pair.t =>
    if Req_dec_T (Rabs (Pair.correlation p)) k then true else false in
  exists rest,
    filter same (upper_pairs corr_matrix)
    = (filter same (extract_top_correlations corr_matrix n) ++ rest)%list.
Proof.
  cbv zeta. rewrite top_correlations_prefix. cbv zeta.
  pose proof (sort_desc_stable (fun p => Rabs (Pair.correlation p)) k
                (upper_pairs corr_matrix)) as Hst.
  cbv beta in Hst. rewrite <- Hst.
  set (ranked := sort_desc _ (upper_pairs corr_matrix)).
  set (c := if (n <? 0)%Z then _ else _).
  exists (filter (fun p => if Req_dec_T (Rabs (Pair.correlation p)) k
                           then true else false)
                 (skipn c ranked)).
  rewrite <- filter_app. now rewrite firstn_skipn.
Qed.


(** * The age-group distribution *)

Lemma dict_set_fresh {A : Type} (d : list (string * A)) (key : string) (v : A) :
  ~ In key (map fst d) -> dict_set d key v = (d ++ [(key, v)])%list.
Proof.
  induction d as [| [k x] d IH]; simpl; intros Hnot; [reflexivity |].
  destruct (String.eqb_spec k key) as [E | _].
  - exfalso. apply Hnot. now left.
  - rewrite IH; [reflexivity |]. intros Hin. apply Hnot. now right.
Qed.

(** A loop that stores one entry per key of a duplicate-free list builds
    the entries in the order of the list. *)
Lemma fold_dict_set {A : Type} (g : string -> option A)
  (step : list (string * A) -> string -> list (string * A))
  (keys : list string) (acc : list (string * A)) :
  (forall groups col,
     step groups col
     = match g col with Some v => dict_set groups col v | None => groups end) ->
  NoDup keys ->
  (forall k, In k keys -> ~ In k (map fst acc)) ->
  fold_left step keys acc
  = (acc ++ flat_map (fun col => match g col with
                                 | Some v => [(col, v)]
                                 | None => []
                                 end) keys)%list.
Proof.
  intros Hstep. revert acc.
  induction keys as [| k keys IH]; intros acc Hnd Hfresh; simpl.
  - now rewrite app_nil_r.
  - inversion Hnd as [| ? ? Hk Hnd']; subst.
    rewrite Hstep. destruct (g k) as [v |].
    + rewrite dict_set_fresh by (apply Hfresh; now left).
      rewrite IH; [now rewrite <- app_assoc | exact Hnd' |].
      intros k' Hk' Hin. rewrite map_app, in_app_iff in Hin.
      destruct Hin as [Hin | [E | []]].
      * apply (Hfresh k'); [now right | exact Hin].
      * simpl in E. subst k'. contradiction.
    + apply IH; [exact Hnd' |]. intros k' Hk'. apply Hfresh. now right.
Qed.

Lemma age_cols_nodup : NoDup age_cols.
Proof.
  unfold age_cols.
  repeat (constructor; [simpl; intros H;
                        repeat (destruct H as [H | H]; [discriminate H |]);
                        exact H |]).
  constructor.
Qed.

(** The distribution counts every row of the table, and holds a summary
    for exactly those of the six age columns on which the univariate
    summary succeeds, each under its own name, once, in the order of the
    list of age columns. *)
Theorem enrollment_distribution_groups (parse_number : string -> option R)
  (median : list R -> option R) (quantile : list R -> R -> option R)
  (skew kurtosis : list R -> option R) (df : DataFrame) :
  let d := analyze_enrollment_distribution parse_number median quantile skew
                                           kurtosis df in
  let summary :=
    univariate_analysis parse_number median quantile skew kurtosis df in
  Distribution.total_records d = Z.of_nat (List.length (rows df)) /\
  Distribution.age_groups d
  = flat_map (fun col => match summary col with
                         | Ok stats => [(col, stats)]
                         | Error _ => []
                         end) age_cols /\
  NoDup (map fst (Distribution.age_groups d)) /\
  (forall col stats,
     In (col, stats) (Distribution.age_groups d)
     <-> In col age_cols /\ summary col = Ok stats) /\
  (forall col stats,
     In (col, stats) (Distribution.age_groups d) ->
     has_column df col = true /\ Univariate.column stats = col /\
     (1 <= Univariate.count stats)%Z).
Proof.
  cbv zeta.
  set (summary := univariate_analysis parse_number median quantile skew
                                      kurtosis df).
  set (g := fun col => match summary col with
                       | Ok stats => Some stats
                       | Error _ => None
                       end).
  assert (Hgroups :
    Distribution.age_groups
      (analyze_enrollment_distribution parse_number median quantile skew
                                       kurtosis df)
    = flat_map (fun col => match summary col with
                           | Ok stats => [(col, stats)]
                           | Error _ => []
                           end) age_cols).
  { unfold analyze_enrollment_distribution. cbn [Distribution.age_groups].
    rewrite (fold_dict_set g); [| | apply age_cols_nodup | intros k _ []].
    - cbn [app]. apply flat_map_ext. intros col. unfold g.
      now destruct (summary col).
    - intros groups col. unfold g. fold (summary col).
      destruct (has_column df col) eqn:Hc.
      + now destruct (summary col).
      + unfold summary, univariate_analysis. rewrite Hc. reflexivity. }
  assert (Hin : forall col stats,
            In (col, stats)
               (flat_map (fun col => match summary col with
                                     | Ok stats => [(col, stats)]
                                     | Error _ => []
                                     end) age_cols)
            <-> In col age_cols /\ summary col = Ok stats).
  { intros col stats. rewrite in_flat_map. split.
    - intros (c & Hc & H). destruct (summary c) as [| st] eqn:E; [contradiction |].
      destruct H as [H | []]. injection H as -> ->. now split.
    - intros [Hc E]. exists col. split; [exact Hc |]. rewrite E. now left. }
  split; [reflexivity |]. split; [exact Hgroups |]. rewrite Hgroups.
  split; [| split; [exact Hin |]].
  - pose proof age_cols_nodup as Hnd. revert Hnd.
    generalize age_cols as l. induction l as [| c l IH]; intros Hnd;
      [constructor |].
    inversion Hnd as [| ? ? Hc Hnd']; subst. cbn [flat_map].
    destruct (summary c) as [| st]; [now apply IH |].
    cbn [app map fst]. constructor; [| now apply IH].
    intros H. rewrite in_map_iff in H. destruct H as ([c' st'] & E & H).
    simpl in E. subst c'. rewrite in_flat_map in H.
    destruct H as (c'' & Hc'' & H).
    destruct (summary c''); [contradiction |].
    destruct H as [H | []]. injection H as -> _. contradiction.
  - intros col stats H. apply Hin in H. destruct H as [_ E].
    unfold summary in E.
    pose proof (univariate_ok_inv _ _ _ _ _ _ _ _ E) as Hinv. cbv zeta in Hinv.
    destruct Hinv as (Hc & Hne & Hcount & _).
    split; [exact Hc |]. split.
    + unfold univariate_analysis in E. rewrite Hc in E. cbn [negb] in E.
      destruct (List.length _ =? 0)%nat; [discriminate |].
      injection E as <-. reflexivity.
    + rewrite Hcount. destruct (dropna _); [congruence | simpl List.length; lia].
Qed.

(** * Sums per day *)

Lemma group_add_keys (k : Z) (v : R) (groups : list (Z * R)) (k' : Z) :
  In k' (map fst (group_add k v groups)) <-> k' = k \/ In k' (map fst groups).
Proof.
  induction groups as [| [k0 v0] groups IH]; simpl.
  - intuition.
  - destruct (k <? k0)%Z eqn:Hlt; [simpl; intuition |].
    destruct (k =? k0)%Z eqn:Heq.
    + apply Z.eqb_eq in Heq. subst k0. simpl. intuition.
    + simpl. rewrite IH. intuition.
Qed.

Lemma group_add_sorted (k : Z) (v : R) (groups : list (Z * R)) :
  StronglySorted Z.lt (map fst groups) ->
  StronglySorted Z.lt (map fst (group_add k v groups)).
Proof.
  induction groups as [| [k0 v0] groups IH]; simpl; intros Hs.
  - repeat constructor.
  - inversion Hs as [| ? ? Hs' Hall]; subst.
    destruct (k <? k0)%Z eqn:Hlt.
    + apply Z.ltb_lt in Hlt. simpl. constructor; [exact Hs |].
      constructor; [exact Hlt |].
      eapply Forall_impl; [| exact Hall]. simpl. intros a Ha. lia.
    + destruct (k =? k0)%Z eqn:Heq; simpl.
      * exact Hs.
      * apply Z.ltb_ge in Hlt. apply Z.eqb_neq in Heq.
        constructor; [now apply IH |].
        rewrite Forall_forall. intros a Ha. apply group_add_keys in Ha.
        destruct Ha as [-> | Ha]; [lia |].
        rewrite Forall_forall in Hall. now apply Hall.
Qed.

Lemma group_add_sum (k : Z) (v : R) (groups : list (Z * R)) :
  Num.sum (map snd (group_add k v groups)) = Num.sum (map snd groups) + v.
Proof.
  induction groups as [| [k0 v0] groups IH]; [simpl; lra |].
  cbn [group_add].
  destruct (k <? k0)%Z; [cbn [map snd]; rewrite !sum_cons; lra |].
  destruct (k =? k0)%Z; cbn [map snd]; rewrite !sum_cons; [lra |].
  rewrite IH. lra.
Qed.

Lemma group_add_nonneg (k : Z) (v : R) (groups : list (Z * R)) :
  0 <= v -> Forall (fun x => 0 <= x) (map snd groups) ->
  Forall (fun x => 0 <= x) (map snd (group_add k v groups)).
Proof.
  intros Hv. induction groups as [| [k0 v0] groups IH]; simpl; intros Hall.
  - now constructor.
  - inversion Hall as [| ? ? H0 Hall']; subst.
    destruct (k <? k0)%Z; [simpl; now constructor |].
    destruct (k =? k0)%Z; simpl; constructor; auto. lra.
Qed.

(** The fold of [groupby_sum], from any groups already built. *)
Lemma groupby_fold_spec (kvs : list (option Z * R)) (acc : list (Z * R)) :
  let step := fun (groups : list (Z * R)) (kv : option Z * R) =>
    match fst kv with
    | Some k => group_add k (snd kv) groups
    | None => groups
    end in
  let out := fold_left step kvs acc in
  (StronglySorted Z.lt (map fst acc) -> StronglySorted Z.lt (map fst out)) /\
  (forall k, In k (map fst out)
             <-> In k (map fst acc) \/ In (Some k) (map fst kvs)) /\
  Num.sum (map snd out)
  = Num.sum (map snd acc)
    + Num.sum (map (fun kv => match fst kv with
                              | Some _ => snd kv
                              | None => 0
                              end) kvs) /\
  (Forall (fun x => 0 <= x) (map snd acc) ->
   Forall (fun x => 0 <= x) (map snd kvs) ->
   Forall (fun x => 0 <= x) (map snd out)).
Proof.
  cbv zeta. revert acc.
  induction kvs as [| [[k |] v] kvs IH]; intros acc.
  - simpl. repeat split; auto; try lra; intuition.
  - cbn [fold_left fst snd]. destruct (IH (group_add k v acc))
      as (Hs & Hk & Hsum & Hpos).
    split; [intros H; apply Hs, group_add_sorted, H |].
    split; [| split].
    + intros k'. rewrite Hk, group_add_keys. cbn [map fst In].
      split; [intros [[-> | H] | H] | intros [H | [E | H]]]; auto.
      injection E as ->. auto.
    + rewrite Hsum, group_add_sum. cbn [map fst snd]. rewrite sum_cons. lra.
    + intros Hacc Hall. cbn [map snd] in Hall.
      inversion Hall as [| ? ? Hv Hall']; subst.
      apply Hpos; [now apply group_add_nonneg | exact Hall'].
  - cbn [fold_left fst snd]. destruct (IH acc) as (Hs & Hk & Hsum & Hpos).
    split; [exact Hs |]. split; [| split].
    + intros k'. rewrite Hk. cbn [map fst In].
      split; [intros [H | H] | intros [H | [E | H]]]; auto. discriminate E.
    + rewrite Hsum. cbn [map fst snd]. rewrite sum_cons. lra.
    + intros Hacc Hall. cbn [map snd] in Hall.
      inversion Hall as [| ? ? Hv Hall']; subst. now apply Hpos.
Qed.

Lemma sorted_lt_nodup (l : list Z) : StronglySorted Z.lt l -> NoDup l.
Proof.
  induction 1 as [| x l Hs IH Hx]; constructor; [| exact IH].
  intros Hin. rewrite Forall_forall in Hx. specialize (Hx x Hin). lia.
Qed.

(** What [groupby_sum] returns: one group per day that occurs, days in
    ascending order; nothing is lost in the sums; sums of non-negative
    values are non-negative. *)
Lemma groupby_sum_spec (keys : list (option Z)) (values : list R) :
  List.length keys = List.length values ->
  let groups := groupby_sum keys values in
  StronglySorted Z.lt (map fst groups) /\
  NoDup (map fst groups) /\
  (forall k, In k (map fst groups) <-> In (Some k) keys) /\
  (Forall (fun x => 0 <= x) values ->
   Forall (fun x => 0 <= x) (map snd groups)).
Proof.
  intros Hlen. cbv zeta. unfold groupby_sum.
  destruct (groupby_fold_spec (combine keys values) []) as (Hs & Hk & _ & Hpos).
  cbv zeta in Hs, Hk, Hpos.
  rewrite (map_fst_combine _ _ Hlen) in Hk.
  rewrite (map_snd_combine _ _ Hlen) in Hpos.
  assert (Hsorted := Hs (SSorted_nil _)).
  split; [exact Hsorted |]. split; [apply sorted_lt_nodup, Hsorted |].
  split.
  - intros k. rewrite Hk. simpl. intuition.
  - intros H. apply Hpos; [constructor | exact H].
Qed.

Lemma daily_sums_spec (to_datetime : cell -> option Z) (df : DataFrame)
  (column : string) :
  let dates := map to_datetime (get_column df "date") in
  let groups := daily_sums to_datetime df column in
  StronglySorted Z.lt (map fst groups) /\
  NoDup (map fst groups) /\
  (forall d, In d (map fst groups) <-> In (Some d) dates) /\
  ((forall r c, In r (rows df) -> 0 <= cell_value (dict_get r c Missing)) ->
   Forall (fun x => 0 <= x) (map snd groups)).
Proof.
  cbv zeta. unfold daily_sums.
  destruct (groupby_sum_spec (map to_datetime (get_column df "date"))
              (map cell_value (get_column df column)))
    as (Hs & Hnd & Hk & Hpos).
  { unfold get_column. now rewrite !length_map. }
  cbv zeta in Hs, Hnd, Hk, Hpos.
  split; [exact Hs |]. split; [exact Hnd |]. split; [exact Hk |].
  intros Hcells. apply Hpos. unfold get_column. rewrite map_map.
  rewrite Forall_forall. intros x Hx. rewrite in_map_iff in Hx.
  destruct Hx as (r & <- & Hr). now apply Hcells.
Qed.

(** * State indicators *)




Lemma has_column_nonempty (df : DataFrame) (column : string) :
  has_column df column = true -> (List.length (columns df) =? 0)%nat = false.
Proof.
  unfold has_column. destruct (columns df); [discriminate | reflexivity].
Qed.

Lemma filter_nonempty {A : Type} (keep : A -> bool) (l : list A) :
  (List.length (filter keep l) =? 0)%nat = false
  <-> exists x, In x l /\ keep x = true.
Proof.
  split.
  - intros H. destruct (filter keep l) as [| x l'] eqn:E; [discriminate |].
    exists x. apply filter_In. rewrite E. now left.
  - intros (x & Hx & Hk).
    assert (Hin : In x (filter keep l)) by (apply filter_In; now split).
    destruct (filter keep l); [contradiction | reflexivity].
Qed.

Section StateIndicatorFacts.

Variable numeric_columns : DataFrame -> list string.
Variable to_datetime : cell -> option Z.

(** In a table with a state column, a state gets indicators exactly when at
    least one row carries its name, and otherwise the no-data error names
    it; the indicators carry the state's own name and population, and the
    saturation is taken on the total that is reported. *)
Theorem state_indicators_reported (df : DataFrame) (state : string) :
  has_column df "state" = true ->
  let indicators :=
    calculate_state_indicators numeric_columns to_datetime df state in
  ((exists r, indicators = Ok r)
   <-> exists r, In r (rows df)
                 /\ cell_is state (dict_get r "state" Missing) = true) /\
  ((forall r, In r (rows df)
              -> cell_is state (dict_get r "state" Missing) = false) ->
   indicators = Error ("No data for " ++ state)) /\
  (forall r, indicators = Ok r ->
     StateIndicators.state r = state /\
     StateIndicators.saturation_index r
     = calculate_saturation_index (StateIndicators.total_enrollments r) state /\
     Saturation.population_millions (StateIndicators.saturation_index r)
     = dict_get CONFIG.population state 50).
Proof.
  intros Hst. cbv zeta. unfold calculate_state_indicators, state_rows.
  rewrite Hst. unfold df_empty. cbn [filter_rows rows columns].
  rewrite (has_column_nonempty df "state" Hst), orb_false_r.
  set (keep := fun r : row => cell_is state (dict_get r "state" Missing)).
  destruct (List.length (filter keep (rows df)) =? 0)%nat eqn:Hlen;
    cbv iota.
  - assert (Hnone : ~ exists r, In r (rows df) /\ keep r = true).
    { intros H. apply (filter_nonempty (A:=row) keep (rows df)) in H.
      unfold row in *. congruence. }
    split; [split; [intros [r H]; discriminate H | intros H; contradiction] |].
    split; [reflexivity | intros r H; discriminate H].
  - apply (filter_nonempty (A:=row) keep (rows df)) in Hlen as Hex.
    split; [split; [intros _; exact Hex | intros _; eexists; reflexivity] |].
    split.
    + intros Hall. destruct Hex as (r & Hr & Hk). unfold keep in Hk.
      rewrite (Hall r Hr) in Hk. discriminate Hk.
    + intros r H. injection H as <-. repeat split.
Qed.



(** The volatility of a state: without a date column it is the marker
    no_date_data; with one, rows whose date does not parse are left out,
    and when the state's rows name at most one day the status is
    insufficient_data. *)
Theorem state_indicators_volatility_dates (df : DataFrame) (state : string)
  (r : StateIndicators.t) :
  calculate_state_indicators numeric_columns to_datetime df state = Ok r ->
  let dates := map to_datetime (get_column (state_rows df state) "date") in
  (has_column df "date" = false ->
     StateIndicators.volatility_index r
     = {| Volatility.value := 0; Volatility.status := "no_date_data" |}) /\
  (has_column df "date" = true ->
     (forall d1 d2, In (Some d1) dates -> In (Some d2) dates -> d1 = d2) ->
     StateIndicators.volatility_index r
     = {| Volatility.value := 0; Volatility.status := "insufficient_data" |}).
Proof.
  unfold calculate_state_indicators.
  set (state_df := state_rows df state).
  assert (Hcols : has_column state_df "date" = has_column df "date").
  { unfold state_df, state_rows. now destruct (has_column df "state"). }
  destruct (df_empty state_df); [discriminate |].
  intros H. injection H as <-. cbv zeta.
  cbn [StateIndicators.volatility_index]. rewrite Hcols.
  split; intros Hd; rewrite Hd; [reflexivity |].
  intros Hone. apply volatility_short.
  destruct (numeric_columns state_df) as [| first l]; [simpl; lia |].
  destruct (daily_sums_spec to_datetime state_df first) as (_ & Hnd & Hk & _).
  rewrite length_map, <- (length_map fst).
  destruct (map fst (daily_sums to_datetime state_df first))
    as [| d1 [| d2 rest]]; [simpl; lia | simpl; lia | exfalso].
  assert (E : d1 = d2).
  { apply Hone; apply Hk; simpl; auto. }
  subst d2. inversion Hnd as [| ? ? Hnotin _]; subst.
  apply Hnotin. now left.
Qed.

End StateIndicatorFacts.

Lemma state_indicators_reported_witness :
  exists r,
    calculate_state_indicators sample_numeric_columns sample_to_datetime
                               table_states "Kerala" = Ok r /\
    StateIndicators.state r = "Kerala" /\
    Saturation.population_millions (StateIndicators.saturation_index r) = 36.
Proof.
  destruct (state_indicators_reported sample_numeric_columns
              sample_to_datetime table_states "Kerala" eq_refl)
    as (Hex & _ & Hok).
  destruct (proj2 Hex) as [r Hr].
  { eexists. split; [left; reflexivity | reflexivity]. }
  exists r. split; [exact Hr |].
  destruct (Hok r Hr) as (Hs & _ & Hp). split; [exact Hs |].
  rewrite Hp. reflexivity.
Defined.




Lemma state_indicators_volatility_dates_witness :
  exists r,
    calculate_state_indicators sample_numeric_columns sample_to_datetime
                               table_states "Punjab" = Ok r /\
    StateIndicators.volatility_index r
    = {| Volatility.value := 0; Volatility.status := "insufficient_data" |}.
Proof.
  eexists. split; [reflexivity |].
  destruct (state_indicators_volatility_dates sample_numeric_columns
              sample_to_datetime table_states "Punjab" _ eq_refl) as [_ H].
  apply H; [reflexivity |].
  intros d1 d2 H1 H2. simpl in H1, H2.
  destruct H1 as [H1 | []], H2 as [H2 | []]. congruence.
Defined.

(** * The enrollment trend *)

Lemma sorted_last_max (l : list Z) (x : Z) (rest : list Z) :
  StronglySorted Z.lt l -> rev l = x :: rest ->
  In x l /\ forall y, In y l -> (y <= x)%Z.
Proof.
  intros Hs Hrev.
  assert (El : l = (rev rest ++ [x])%list).
  { rewrite <- (rev_involutive l), Hrev. reflexivity. }
  subst l. split; [apply in_or_app; right; now left |].
  intros y Hy. apply in_app_or in Hy. destruct Hy as [Hy | [<- | []]]; [| lia].
  clear Hrev. induction (rev rest) as [| a l IH]; [contradiction |].
  simpl in Hs. inversion Hs as [| ? ? Hs' Hall]; subst.
  destruct Hy as [<- | Hy]; [| now apply IH].
  rewrite Forall_forall in Hall.
  assert (a < x)%Z by (apply Hall, in_or_app; right; now left). lia.
Qed.

Section TrendFacts.

Variable numeric_columns : DataFrame -> list string.
Variable to_datetime : cell -> option Z.
Variable date_string : Z -> string.

(** The days on which a table has a row whose date parses. *)
Lemma valid_dates_filtered (df : DataFrame) (d : Z) :
  let dated :=
    filter_rows df (fun r =>
      match to_datetime (dict_get r "date" Missing) with
      | Some _ => true
      | None => false
      end) in
  In (Some d) (map to_datetime (get_column dated "date"))
  <-> In (Some d) (map to_datetime (get_column df "date")).
Proof.
  cbv zeta. unfold get_column, filter_rows. cbn [rows].
  rewrite !map_map, !in_map_iff. split.
  - intros (r & E & Hr). apply filter_In in Hr. exists r. tauto.
  - intros (r & E & Hr). exists r. split; [exact E |].
    apply filter_In. split; [exact Hr |]. now rewrite E.
Qed.


(** The last date of a trend is the latest date that some row holds and
    that parses, and it is absent exactly when there is no such date. *)
Theorem trend_last_date (df : DataFrame) (t : Trend.t) :
  forecast_enrollment_trend numeric_columns to_datetime date_string df = Ok t ->
  let dates := map to_datetime (get_column df "date") in
  (Trend.last_date t = None <-> Trend.historical_days t = 0%Z) /\
  (forall d, In (Some d) dates ->
     exists last,
       Trend.last_date t = Some (date_string last) /\
       In (Some last) dates /\ (d <= last)%Z).
Proof.
  unfold forecast_enrollment_trend.
  destruct (df_empty df || negb (has_column df "date")); [discriminate |].
  set (dated := filter_rows df _).
  destruct (numeric_columns dated) as [| first l]; [discriminate |].
  intros H. injection H as <-. cbv zeta.
  cbn [Trend.last_date Trend.historical_days].
  destruct (daily_sums_spec to_datetime dated first) as (Hs & _ & Hk & _).
  set (groups := daily_sums to_datetime dated first) in *.
  destruct (rev groups) as [| [last v] rest] eqn:Hrev.
  - assert (E : groups = []).
    { rewrite <- (rev_involutive groups), Hrev. reflexivity. }
    rewrite E in *. split; [split; reflexivity |].
    intros d Hd. exfalso. apply valid_dates_filtered in Hd.
    apply Hk in Hd. exact Hd.
  - assert (Hne : groups <> []) by (intros E; rewrite E in Hrev; discriminate).
    split.
    + split; [discriminate |]. intros H. destruct groups; [congruence |].
      simpl List.length in H. lia.
    + intros d Hd. exists last. split; [reflexivity |].
      assert (Hrev' : rev (map fst groups) = last :: map fst rest)
        by (rewrite <- map_rev, Hrev; reflexivity).
      destruct (sorted_last_max _ _ _ Hs Hrev') as [Hin Hmax].
      split.
      * apply valid_dates_filtered. apply Hk. exact Hin.
      * apply Hmax. apply Hk. apply valid_dates_filtered. exact Hd.
Qed.

End TrendFacts.

Lemma trend_last_date_witness :
  exists t,
    forecast_enrollment_trend sample_numeric_columns sample_to_datetime
                              (fun d => "day") table_states = Ok t /\
    Trend.historical_days t = 2%Z /\
    exists last, Trend.last_date t = Some "day" /\ (20089 <= last)%Z.
Proof.
  eexists. split; [reflexivity |]. split; [reflexivity |].
  destruct (trend_last_date sample_numeric_columns sample_to_datetime
              (fun d => "day") table_states _ eq_refl) as [_ H].
  destruct (H 20089%Z) as (last & Hl & _ & Hle); [left; reflexivity |].
  exists last. split; [exact Hl | exact Hle].
Defined.
